(** * s3uploader: the upload pipeline, embedded and verified

    A shallow embedding of [database.py], [s3_client_wrapper.py],
    [s3_image_uploader.py] and of [key_for_local_path] from
    [s3_upload_verifier.py].

    Python objects become records, the mutable process state is threaded
    through a state-and-exception monad [M], and everything outside the
    process (the file system, the object store, the credential file, the
    PostgreSQL server's faults, the clock) answers through an explicit
    environment record per call site.  Python integers are [Z]; strings are
    [string]. *)

From Stdlib Require Import ZArith List String Ascii Bool Lia.
Import ListNotations.

Local Open Scope string_scope.
Local Open Scope Z_scope.
Local Open Scope list_scope.

(** ** Python string helpers *)

Module Py.

(** [c in chars] for a one-character string [c]. *)
Fixpoint char_in (c : ascii) (chars : string) : bool :=
  match chars with
  | EmptyString => false
  | String d rest => if Ascii.eqb c d then true else char_in c rest
  end.

(** [s.lstrip(chars)]: drop the longest prefix made of characters of
    [chars]. *)
Fixpoint lstrip (chars s : string) : string :=
  match s with
  | EmptyString => EmptyString
  | String c rest => if char_in c chars then lstrip chars rest else s
  end.

(** [x in xs] for a list of strings. *)
Fixpoint str_in (x : string) (xs : list string) : bool :=
  match xs with
  | [] => false
  | y :: ys => if String.eqb x y then true else str_in x ys
  end.

(** A [dict] with string keys and values, as the configuration dicts
    handed to the uploader. *)
Definition dict : Type := list (string * string).

(** [d.get(k)]. *)
Fixpoint dict_get (d : dict) (k : string) : option string :=
  match d with
  | [] => None
  | (k', v) :: rest => if String.eqb k k' then Some v else dict_get rest k
  end.

End Py.

(** ** Exceptions and results *)

(** The exception classes the code tells apart.  [S3MeltdownError] is the
    class declared in [s3_image_uploader.py]; [ClientError] is botocore's,
    carrying [e.response['Error']['Code']]; [Exception] stands for every
    other subclass of Python's [Exception] (classes that derive from
    [BaseException] alone, such as [KeyboardInterrupt], are asynchronous
    and outside the embedding).  Each carries its [str(e)]. *)
Inductive exn : Type :=
| S3MeltdownError (msg : string)
| ClientError (code msg : string)
| Exception (msg : string).

Definition str (e : exn) : string :=
  match e with
  | S3MeltdownError m => m
  | ClientError _ m => m
  | Exception m => m
  end.

Definition is_meltdown_exn (e : exn) : bool :=
  match e with S3MeltdownError _ => true | _ => false end.

Inductive result (A : Type) : Type :=
| Return (a : A)
| Raise (e : exn).
Arguments Return {A} a.
Arguments Raise {A} e.

Definition is_meltdown {A} (r : result A) : bool :=
  match r with Raise e => is_meltdown_exn e | Return _ => false end.

(** What a call to the outside answers: it completes, or it fails with a
    botocore [ClientError] or with some other exception. *)
Inductive io_error : Type :=
| ClientErr (code msg : string)
| OtherErr (msg : string).

Inductive response (A : Type) : Type :=
| Done (a : A)
| Failed (e : io_error).
Arguments Done {A} a.
Arguments Failed {A} e.

Definition to_exn (e : io_error) : exn :=
  match e with
  | ClientErr c m => ClientError c m
  | OtherErr m => Exception m
  end.

(** ** Data model *)

(** A row of table [upload_to_s3] (the pending queue). *)
Record upload_row : Type := mk_upload_row {
  id : Z;
  image_id : Z;
  acq_id : Z;
  path : string;
  status : string;
  retry_count : Z;
  last_error : option string
}.

(** A row of table [uploaded_s3] (the ledger). *)
Record uploaded_row : Type := mk_uploaded_row {
  up_image_id : Z;
  up_acq_id : Z;
  up_path : string;
  object_key : string;
  bucket : string
}.

(** The dict [fetch_pending_uploads] yields per row:
    [id, image_id, acq_id, path AS local_path]. *)
Record image_record : Type := mk_image_record {
  rec_id : Z;
  rec_image_id : Z;
  rec_acq_id : Z;
  local_path : string
}.

(** psycopg2's [ThreadedConnectionPool]: open after construction, closed
    after [closeall()]. *)
Inductive pool : Type := PoolOpen | PoolClosed.

(** [Database]: the pool attribute (None until
    [initialize_connection_pool]) together with the two tables the
    statements act on. *)
Record Database : Type := mk_Database {
  connection_pool : option pool;
  upload_to_s3 : list upload_row;
  uploaded_s3 : list uploaded_row
}.

(** A boto3 client object, told apart by identity. *)
Definition handle : Type := nat.

(** [S3ClientWrapper]; [_expiry_time] is an instant in microseconds since
    the epoch (UTC). *)
Record S3ClientWrapper : Type := mk_S3ClientWrapper {
  endpoint_url : string;
  region : option string;
  _s3_client : option handle;
  _expiry_time : option Z
}.

Record S3ImageUploader : Type := mk_S3ImageUploader {
  db : Database;
  s3_client_wrapper : S3ClientWrapper;
  max_workers : Z;
  meltdown_threshold : Z;
  consecutive_meltdown_errors : Z;
  sleep_time : Z
}.

(** ** Observable events *)

Inductive level : Type := INFO | WARNING | ERROR | EXCEPTION.

(** The calls the process makes to its collaborators, in program order.
    [Log] records a call to [logging] at the given level (the text of the
    record is not kept); what the wrapper [print]s is not recorded. *)
Inductive event : Type :=
| IsFile (p : string)
| CreateClient (endpoint : string)
| HeadObject (bucket_name key : string)
| OpenFile (p : string)
| PutObject (bucket_name key : string)
| DbFetch (limit : Z)
| DbDelete (upload_id : Z)
| DbMarkFailed (upload_id : Z) (error_msg : string)
| DbInsert (row : uploaded_row)
| DbCloseAll
| Sleep (seconds : Z)
| Log (lvl : level).

(** The process: the uploader object (which owns the database accessor and
    the client wrapper) and the trace of events so far. *)
Record world : Type := mk_world {
  self : S3ImageUploader;
  trace : list event
}.

(** ** The state-and-exception monad *)

Definition M (A : Type) : Type := world -> world * result A.

Definition ret {A} (a : A) : M A := fun w => (w, Return a).

Definition raise {A} (e : exn) : M A := fun w => (w, Raise e).

Definition bind {A B} (m : M A) (k : A -> M B) : M B :=
  fun w =>
    match m w with
    | (w', Return a) => k a w'
    | (w', Raise e) => (w', Raise e)
    end.

(** [try: m  except Exception as e: h e]. *)
Definition try_except {A} (m : M A) (h : exn -> M A) : M A :=
  fun w =>
    match m w with
    | (w', Return a) => (w', Return a)
    | (w', Raise e) => h e w'
    end.

Notation "x <- m ;; k" := (bind m (fun x => k))
  (at level 61, m at next level, right associativity).
Notation "m ;;; k" := (bind m (fun _ => k))
  (at level 61, right associativity).

Definition emit (ev : event) : M unit :=
  fun w => (mk_world (self w) (trace w ++ [ev]), Return tt).

Definition logging (lvl : level) : M unit := emit (Log lvl).

Definition get_self : M S3ImageUploader := fun w => (w, Return (self w)).

Definition set_self (s : S3ImageUploader) : M unit :=
  fun w => (mk_world s (trace w), Return tt).

(** Attribute assignments. *)
Definition with_db (d : Database) (s : S3ImageUploader) : S3ImageUploader :=
  mk_S3ImageUploader d (s3_client_wrapper s) (max_workers s)
    (meltdown_threshold s) (consecutive_meltdown_errors s) (sleep_time s).

Definition with_wrapper (c : S3ClientWrapper) (s : S3ImageUploader)
  : S3ImageUploader :=
  mk_S3ImageUploader (db s) c (max_workers s)
    (meltdown_threshold s) (consecutive_meltdown_errors s) (sleep_time s).

Definition with_errors (n : Z) (s : S3ImageUploader) : S3ImageUploader :=
  mk_S3ImageUploader (db s) (s3_client_wrapper s) (max_workers s)
    (meltdown_threshold s) n (sleep_time s).

Definition get_db : M Database := fun w => (w, Return (db (self w))).

Definition set_db (d : Database) : M unit :=
  fun w => (mk_world (with_db d (self w)) (trace w), Return tt).

(** ** database.py *)

Module Db.

(** [get_connection]: [getconn()] on the pool, which psycopg2 refuses on
    a closed pool; the explicit raise when no pool was initialised. *)
Definition get_connection : M unit :=
  d <- get_db ;;
  match connection_pool d with
  | Some PoolOpen => ret tt
  | Some PoolClosed => raise (Exception "connection pool is closed")
  | None => raise (Exception "Connection pool is not initialized.")
  end.

(** [close_all_connections]: [closeall()] when a pool exists; psycopg2
    raises on a pool already closed. *)
Definition close_all_connections : M unit :=
  emit DbCloseAll ;;;
  d <- get_db ;;
  match connection_pool d with
  | Some PoolOpen =>
      set_db (mk_Database (Some PoolClosed) (upload_to_s3 d) (uploaded_s3 d))
  | Some PoolClosed => raise (Exception "connection pool is closed")
  | None => ret tt
  end.

(** [execute_query].  [stmt] is the statement's effect on the tables, or
    the server's own error for it; [fault] is a failure of the server or
    of the connection while the statement runs.  An exception inside the
    [try] is logged, the transaction rolled back (tables unchanged), and
    the exception raised again; the connection goes back to the pool in
    every case. *)
Definition execute_query {A} (fault : option string)
    (stmt : Database -> result (Database * A)) : M A :=
  get_connection ;;;
  try_except
    (match fault with
     | Some m => raise (Exception m)
     | None =>
         d <- get_db ;;
         match stmt d with
         | Return (d', a) => set_db d' ;;; ret a
         | Raise e => raise e
         end
     end)
    (fun e => logging EXCEPTION ;;; raise e).

Definition to_record (r : upload_row) : image_record :=
  mk_image_record (id r) (image_id r) (acq_id r) (path r).

Definition eligible (r : upload_row) : bool := retry_count r <? 5.

(** [SELECT id, image_id, acq_id, path AS local_path FROM upload_to_s3
    WHERE retry_count < 5 LIMIT %s].  PostgreSQL rejects a negative
    LIMIT; rows come in the table's scan order. *)
Definition query_fetch (limit : Z) (d : Database)
  : result (Database * list image_record) :=
  if limit <? 0 then Raise (Exception "LIMIT must not be negative")
  else Return (d, map to_record
                    (firstn (Z.to_nat limit)
                       (filter eligible (upload_to_s3 d)))).

Definition fetch_pending_uploads (limit : Z) (fault : option string)
  : M (list image_record) :=
  emit (DbFetch limit) ;;;
  execute_query fault (query_fetch limit).

(** [DELETE FROM upload_to_s3 WHERE id = %s]. *)
Definition query_delete (upload_id : Z) (d : Database)
  : result (Database * unit) :=
  Return (mk_Database (connection_pool d)
            (filter (fun r => negb (id r =? upload_id)) (upload_to_s3 d))
            (uploaded_s3 d), tt).

Definition delete_uploaded_record (upload_id : Z) (fault : option string)
  : M unit :=
  emit (DbDelete upload_id) ;;;
  execute_query fault (query_delete upload_id) ;;;
  logging INFO.

(** [UPDATE upload_to_s3 SET status = 'failed', last_error = %s,
    retry_count = retry_count + 1 WHERE id = %s]. *)
Definition fail_row (error_msg : string) (r : upload_row) : upload_row :=
  mk_upload_row (id r) (image_id r) (acq_id r) (path r)
    "failed" (retry_count r + 1) (Some error_msg).

Definition query_update (upload_id : Z) (error_msg : string) (d : Database)
  : result (Database * unit) :=
  Return (mk_Database (connection_pool d)
            (map (fun r => if id r =? upload_id then fail_row error_msg r
                           else r) (upload_to_s3 d))
            (uploaded_s3 d), tt).

Definition mark_as_failed (upload_id : Z) (error_msg : string)
    (fault : option string) : M unit :=
  emit (DbMarkFailed upload_id error_msg) ;;;
  execute_query fault (query_update upload_id error_msg) ;;;
  logging INFO.

(** [INSERT INTO uploaded_s3 (image_id, acq_id, path, object_key, bucket)
    VALUES (...)]. *)
Definition query_insert (row : uploaded_row) (d : Database)
  : result (Database * unit) :=
  Return (mk_Database (connection_pool d) (upload_to_s3 d)
            (uploaded_s3 d ++ [row]), tt).

Definition insert_into_uploaded_s3 (image_id acq_id : Z)
    (local_path s3_path bucket_name : string) (fault : option string)
  : M unit :=
  let row := mk_uploaded_row image_id acq_id local_path s3_path bucket_name in
  emit (DbInsert row) ;;;
  execute_query fault (query_insert row) ;;;
  logging INFO.

(** [initialize_connection_pool].  [connect] is what psycopg2 answers to
    [ThreadedConnectionPool(1, 20, ...)]; a pool the accessor already held
    is replaced, not closed. *)
Definition initialize_connection_pool (connect : response unit) : M unit :=
  try_except
    (match connect with
     | Failed e => raise (to_exn e)
     | Done _ =>
         d <- get_db ;;
         set_db (mk_Database (Some PoolOpen) (upload_to_s3 d)
                   (uploaded_s3 d)) ;;;
         logging INFO
     end)
    (fun e => logging EXCEPTION ;;; raise e).

(** [for record in pending_images: if record['local_path'] == path:
    return record]. *)
Fixpoint first_with_path (path : string) (pending_images : list image_record)
  : option image_record :=
  match pending_images with
  | [] => None
  | record :: rest =>
      if String.eqb (local_path record) path then Some record
      else first_with_path path rest
  end.

(** [fetch_pending_uploads_single_image]; [None] is Python's [None]. *)
Definition fetch_pending_uploads_single_image (path : string)
    (fault : option string) : M (option image_record) :=
  pending_images <- fetch_pending_uploads 50 fault ;;
  match pending_images with
  | [] => logging INFO ;;; ret None
  | _ :: _ => ret (first_with_path path pending_images)
  end.

End Db.

(** ** s3_client_wrapper.py *)

Module Wrapper.

Definition BUFFER_PERIOD_MINUTES : Z := 10.

(** [datetime.timedelta(minutes=m)], in microseconds. *)
Definition timedelta_minutes (m : Z) : Z := m * 60 * 1000000.

(** What the outside answers during one call of [get_fresh_s3_client]:
    the clock, boto3's [session.client('s3', ...)], and the expiration
    that [_read_aws_credentials_expiry] gets out of [~/.aws/credentials]
    ([None] when the entry is missing, empty or unreadable: the method
    swallows its own exceptions). *)
Record cred_env : Type := mk_cred_env {
  now : Z;
  session_client : response handle;
  credentials_expiration : option Z
}.

Definition get_wrapper : M S3ClientWrapper :=
  fun w => (w, Return (s3_client_wrapper (self w))).

Definition set_wrapper (c : S3ClientWrapper) : M unit :=
  fun w => (mk_world (with_wrapper c (self w)) (trace w), Return tt).

Definition _read_aws_credentials_expiry (env : cred_env) : M (option Z) :=
  ret (credentials_expiration env).

Definition _create_s3_client (env : cred_env) : M handle :=
  try_except
    (c <- get_wrapper ;;
     emit (CreateClient (endpoint_url c)) ;;;
     match session_client env with
     | Failed e => raise (to_exn e)
     | Done client =>
         expiry <- _read_aws_credentials_expiry env ;;
         set_wrapper (mk_S3ClientWrapper (endpoint_url c) (region c)
                        (_s3_client c) expiry) ;;;
         ret client
     end)
    (fun e => raise e).

(** The test of [_refresh_s3_client]:
    [force_refresh or not self._expiry_time or (self._expiry_time and
     current_time >= self._expiry_time - timedelta(minutes=10))]. *)
Definition needs_refresh (force_refresh : bool) (expiry : option Z)
    (current_time : Z) : bool :=
  force_refresh
  || match expiry with None => true | Some _ => false end
  || match expiry with
     | Some t => current_time >=? t - timedelta_minutes BUFFER_PERIOD_MINUTES
     | None => false
     end.

Definition _refresh_s3_client (env : cred_env) (force_refresh : bool)
  : M unit :=
  c <- get_wrapper ;;
  let current_time := now env in
  if needs_refresh force_refresh (_expiry_time c) current_time then
    client <- _create_s3_client env ;;
    c' <- get_wrapper ;;
    set_wrapper (mk_S3ClientWrapper (endpoint_url c') (region c')
                   (Some client) (_expiry_time c'))
  else ret tt.

Definition get_fresh_s3_client (env : cred_env) : M (option handle) :=
  _refresh_s3_client env false ;;;
  c <- get_wrapper ;;
  ret (_s3_client c).

(** [S3ClientWrapper.__init__]. *)
Definition init (endpoint : string) (reg : option string) (env : cred_env)
  : M unit :=
  set_wrapper (mk_S3ClientWrapper endpoint reg None None) ;;;
  _refresh_s3_client env true.

End Wrapper.

(** ** s3_upload_verifier.py *)

Module Verifier.

Definition key_for_local_path (local_path : string) : string :=
  Py.lstrip "/" local_path.

Definition BUCKET_NAME : string := "mikro".

(** [check_exists]: the answer and the error text. *)
Definition check_exists (s3_client : option handle) (bucket_name key : string)
    (resp : response unit) : M (bool * string) :=
  try_except
    (match s3_client with
     | None =>
         raise (Exception "'NoneType' object has no attribute 'head_object'")
     | Some _ =>
         emit (HeadObject bucket_name key) ;;;
         match resp with
         | Done _ => ret (true, "")
         | Failed e => raise (to_exn e)
         end
     end)
    (fun e =>
       match e with
       | ClientError code _ =>
           if String.eqb code "404" then ret (false, "Not found (404)")
           else ret (false, ("ClientError: " ++ code)%string)
       | _ => ret (false, ("Error: " ++ str e)%string)
       end).

(** The [while] loop of [sample_random_tiffs].  [finds k] is what the
    (k+1)-th call of [find_random_tiff_in_tree] returns (a walk of the
    file system under random choices); [seen] is the set, kept as a list
    that is only tested for membership.  Progress logging is left out.
    [None]: out of fuel. *)
Fixpoint sample_loop (fuel : nat) (n max_attempts : Z) (finds : nat -> string)
    (chosen seen : list string) (attempts : Z) : option (list string) :=
  if (Z.of_nat (List.length chosen) <? n) && (attempts <? max_attempts) then
    match fuel with
    | O => None
    | S fuel' =>
        let found := finds (Z.to_nat attempts) in
        let attempts := attempts + 1 in
        if String.eqb found "" then
          sample_loop fuel' n max_attempts finds chosen seen attempts
        else if Py.str_in found seen then
          sample_loop fuel' n max_attempts finds chosen seen attempts
        else
          sample_loop fuel' n max_attempts finds (chosen ++ [found])
            (found :: seen) attempts
    end
  else Some chosen.

Definition sample_random_tiffs (n max_attempts : Z) (finds : nat -> string)
  : option (list string) :=
  sample_loop (Z.to_nat max_attempts) n max_attempts finds [] [] 0.

(** The [while] loop of the generator [yield_random_tiffs], as the list of
    the values it yields when run to exhaustion. *)
Fixpoint yield_loop (fuel : nat) (n max_attempts : Z) (finds : nat -> string)
    (seen : list string) (attempts emitted : Z) : option (list string) :=
  if (emitted <? n) && (attempts <? max_attempts) then
    match fuel with
    | O => None
    | S fuel' =>
        let found := finds (Z.to_nat attempts) in
        let attempts := attempts + 1 in
        if String.eqb found "" then
          yield_loop fuel' n max_attempts finds seen attempts emitted
        else if Py.str_in found seen then
          yield_loop fuel' n max_attempts finds seen attempts emitted
        else
          match yield_loop fuel' n max_attempts finds (found :: seen)
                  attempts (emitted + 1) with
          | Some rest => Some (found :: rest)
          | None => None
          end
    end
  else Some [].

Definition yield_random_tiffs (n max_attempts : Z) (finds : nat -> string)
  : option (list string) :=
  yield_loop (Z.to_nat max_attempts) n max_attempts finds [] 0 0.

End Verifier.

(** ** s3_image_uploader.py *)

Module Uploader.

(** What the outside answers while one task is processed. *)
Record task_env : Type := mk_task_env {
  isfile : bool;
  cred : Wrapper.cred_env;
  head_object : response unit;
  open_file : response unit;
  put_object : response unit;
  insert_fault : option string;
  delete_fault : option string;
  mark_fault : option string
}.

(** [upload_image] returns [None] on each of its three normal exits; the
    embedding tags the value with the exit taken: the two early [return]s
    and the end of the [try] body, and the [except Exception] handler. *)
Inductive outcome : Type := SoftFailed | SkippedExisting | Succeeded.

Definition transient_codes : list string :=
  ["503"; "RequestTimeout"; "ServiceUnavailable"].

Definition meltdown_msg : string :=
  "Too many consecutive meltdown-level errors.".

(** The block both S3 helpers run on a [ClientError]:
    [if error_code in [...]: self.consecutive_meltdown_errors += 1;
     if self.consecutive_meltdown_errors >= self.meltdown_threshold:
       logging.error(...); raise S3MeltdownError(...)]. *)
Definition count_meltdown_error (error_code : string) : M unit :=
  if Py.str_in error_code transient_codes then
    s <- get_self ;;
    set_self (with_errors (consecutive_meltdown_errors s + 1) s) ;;;
    s' <- get_self ;;
    if consecutive_meltdown_errors s' >=? meltdown_threshold s' then
      logging ERROR ;;;
      raise (S3MeltdownError meltdown_msg)
    else ret tt
  else ret tt.

Definition file_exists_in_s3 (s3_client : option handle)
    (bucket_name s3_path : string) (resp : response unit) : M bool :=
  match s3_client with
  | None => raise (Exception "'NoneType' object has no attribute 'head_object'")
  | Some _ =>
      emit (HeadObject bucket_name s3_path) ;;;
      match resp with
      | Done _ => ret true
      | Failed (OtherErr m) => raise (Exception m)
      | Failed (ClientErr error_code m) =>
          if String.eqb error_code "404" then ret false
          else
            count_meltdown_error error_code ;;;
            raise (ClientError error_code m)
      end
  end.

Definition upload_file_to_s3_non_multipart (s3_client : option handle)
    (bucket_name local_path s3_path : string)
    (opened put : response unit) : M unit :=
  try_except
    (emit (OpenFile local_path) ;;;
     match opened with
     | Failed e => raise (to_exn e)
     | Done _ =>
         match s3_client with
         | None =>
             raise (Exception "'NoneType' object has no attribute 'put_object'")
         | Some _ =>
             emit (PutObject bucket_name s3_path) ;;;
             match put with
             | Failed e => raise (to_exn e)
             | Done _ => logging INFO
             end
         end
     end)
    (fun e =>
       match e with
       | ClientError error_code _ =>
           count_meltdown_error error_code ;;;
           raise e
       | _ => raise e
       end).

Definition upload_file_to_s3 (s3_client : option handle)
    (bucket_name local_path s3_path : string)
    (opened put : response unit) : M unit :=
  upload_file_to_s3_non_multipart s3_client bucket_name local_path s3_path
    opened put.

Definition os_path_isfile (p : string) (answer : bool) : M bool :=
  emit (IsFile p) ;;; ret answer.

(** The destination key, [local_path.lstrip('/')]. *)
Definition s3_path_of (local_path : string) : string :=
  Py.lstrip "/" local_path.

Definition missing_msg (local_path : string) : string :=
  ("Local file " ++ local_path ++ " does not exist.")%string.

Definition upload_image (image_record : image_record) (env : task_env)
  : M outcome :=
  let upload_id := rec_id image_record in
  let local_path := local_path image_record in
  let image_id := rec_image_id image_record in
  let acq_id := rec_acq_id image_record in
  let s3_path := s3_path_of local_path in
  let bucket_name := "mikro" in
  present <- os_path_isfile local_path (isfile env) ;;
  if negb present then
    let error_msg := missing_msg local_path in
    logging ERROR ;;;
    Db.mark_as_failed upload_id error_msg (mark_fault env) ;;;
    ret SoftFailed
  else
    try_except
      (s3_client <- Wrapper.get_fresh_s3_client (cred env) ;;
       found <- file_exists_in_s3 s3_client bucket_name s3_path
                  (head_object env) ;;
       if found then
         logging INFO ;;;
         Db.delete_uploaded_record upload_id (delete_fault env) ;;;
         ret SkippedExisting
       else
         upload_file_to_s3 s3_client bucket_name local_path s3_path
           (open_file env) (put_object env) ;;;
         Db.insert_into_uploaded_s3 image_id acq_id local_path s3_path
           bucket_name (insert_fault env) ;;;
         Db.delete_uploaded_record upload_id (delete_fault env) ;;;
         logging INFO ;;;
         s <- get_self ;;
         set_self (with_errors 0 s) ;;;
         ret Succeeded)
      (fun e =>
         match e with
         | S3MeltdownError _ => raise e
         | _ =>
             logging EXCEPTION ;;;
             Db.mark_as_failed upload_id (str e) (mark_fault env) ;;;
             ret SoftFailed
         end).

(** *** The scheduler loop *)

(** What the outside answers during one iteration of the loop: the fault,
    if any, of the fetch, and the answers to the worker of the i-th
    record of the batch. *)
Record iter_env : Type := mk_iter_env {
  fetch_fault : option string;
  worker_env : nat -> task_env
}.

(** A submitted call: its exception, if any, is kept in the future. *)
Definition future {A} (m : M A) : M (result A) :=
  fun w => let (w', r) := m w in (w', Return r).

(** The executor's work on one batch, under the schedule in which the
    workers run one after the other in submission order; leaving the
    [with] block waits for every submitted call. *)
Fixpoint run_workers (i : nat) (pending_images : list image_record)
    (envs : nat -> task_env) : M (list (result outcome)) :=
  match pending_images with
  | [] => ret []
  | record :: rest =>
      r <- future (upload_image record (envs i)) ;;
      rs <- run_workers (S i) rest envs ;;
      ret (r :: rs)
  end.

(** [for future in as_completed(...)]: [future.result()] under
    [except S3MeltdownError] (warn, set the flag, break) and
    [except Exception: pass].  Returns [meltdown_detected]. *)
Fixpoint collect_results (futures : list (result outcome)) : M bool :=
  match futures with
  | [] => ret false
  | Raise (S3MeltdownError _) :: _ => logging WARNING ;;; ret true
  | _ :: rest => collect_results rest
  end.

(** [time.sleep], which rejects a negative length. *)
Definition time_sleep (seconds : Z) : M unit :=
  if seconds <? 0 then raise (Exception "sleep length must be non-negative")
  else emit (Sleep seconds).

(** [ThreadPoolExecutor(max_workers=n)], which rejects [n <= 0]. *)
Definition thread_pool_executor (n : Z) : M unit :=
  if n <=? 0 then raise (Exception "max_workers must be greater than 0")
  else ret tt.

Inductive ctl : Type := Continue | Break.

(** The body of the [try] inside [while True]. *)
Definition loop_body (e : iter_env) : M ctl :=
  pending_images <- Db.fetch_pending_uploads 50 (fetch_fault e) ;;
  match pending_images with
  | [] =>
      logging INFO ;;;
      s <- get_self ;;
      time_sleep (sleep_time s) ;;;
      ret Continue
  | _ :: _ =>
      logging INFO ;;;
      s <- get_self ;;
      thread_pool_executor (max_workers s) ;;;
      futures <- run_workers 0 pending_images (worker_env e) ;;
      meltdown_detected <- collect_results futures ;;
      if meltdown_detected then logging INFO ;;; ret Break
      else ret Continue
  end.

(** One turn of [while True]: the body under [except Exception], whose
    handler logs and lets the loop go on. *)
Definition iteration (e : iter_env) : M ctl :=
  try_except (loop_body e) (fun _ => logging EXCEPTION ;;; ret Continue).

(** [run_multithreaded] over a finite prefix of the outside's answers, one
    per iteration.  [None]: the loop is still running when the prefix is
    used up. *)
Fixpoint run_multithreaded (envs : list iter_env) (w : world)
  : option (world * result unit) :=
  match envs with
  | [] => None
  | e :: rest =>
      match iteration e w with
      | (w1, Return Continue) => run_multithreaded rest w1
      | (w1, Return Break) =>
          Some ((Db.close_all_connections ;;; logging INFO) w1)
      | (w1, Raise ex) => Some (w1, Raise ex)
      end
  end.

(** [d[k]], a [KeyError] when the key is missing. *)
Definition getitem (d : Py.dict) (k : string) : M string :=
  match Py.dict_get d k with
  | Some v => ret v
  | None => raise (Exception ("'" ++ k ++ "'")%string)
  end.

(** [S3ImageUploader.__init__].  The database accessor is the process-wide
    singleton, so the tables and any pool it holds are those of the world
    the constructor starts in. *)
Definition init (db_config s3_config : Py.dict) (connect : response unit)
    (cenv : Wrapper.cred_env) (workers threshold sleep : Z) : M unit :=
  _user <- getitem db_config "user" ;;
  _password <- getitem db_config "password" ;;
  _host <- getitem db_config "host" ;;
  _port <- getitem db_config "port" ;;
  _database <- getitem db_config "database" ;;
  Db.initialize_connection_pool connect ;;;
  endpoint <- getitem s3_config "endpoint_url" ;;
  Wrapper.init endpoint (Py.dict_get s3_config "region") cenv ;;;
  s <- get_self ;;
  set_self (mk_S3ImageUploader (db s) (s3_client_wrapper s) workers
              threshold 0 sleep).

(** The [for record in pending_images] of [run_singlethreaded]:
    [upload_image] under [except S3MeltdownError] (warn, set the flag,
    break) and [except Exception: pass].  Returns [meltdown_detected]. *)
Fixpoint upload_each (i : nat) (pending_images : list image_record)
    (envs : nat -> task_env) : M bool :=
  match pending_images with
  | [] => ret false
  | record :: rest =>
      r <- future (upload_image record (envs i)) ;;
      match r with
      | Raise (S3MeltdownError _) => logging WARNING ;;; ret true
      | _ => upload_each (S i) rest envs
      end
  end.

(** The body of the [try] inside the [while True] of
    [run_singlethreaded]. *)
Definition loop_body_single (e : iter_env) : M ctl :=
  pending_images <- Db.fetch_pending_uploads 50 (fetch_fault e) ;;
  match pending_images with
  | [] =>
      logging INFO ;;;
      s <- get_self ;;
      time_sleep (sleep_time s) ;;;
      ret Continue
  | _ :: _ =>
      logging INFO ;;;
      meltdown_detected <- upload_each 0 pending_images (worker_env e) ;;
      if meltdown_detected then logging INFO ;;; ret Break
      else ret Continue
  end.

Definition iteration_single (e : iter_env) : M ctl :=
  try_except (loop_body_single e)
    (fun _ => logging EXCEPTION ;;; ret Continue).

(** [run_singlethreaded] over a finite prefix of the outside's answers. *)
Fixpoint run_singlethreaded (envs : list iter_env) (w : world)
  : option (world * result unit) :=
  match envs with
  | [] => None
  | e :: rest =>
      match iteration_single e w with
      | (w1, Return Continue) => run_singlethreaded rest w1
      | (w1, Return Break) =>
          Some ((Db.close_all_connections ;;; logging INFO) w1)
      | (w1, Raise ex) => Some (w1, Raise ex)
      end
  end.

(** [run]. *)
Definition run (envs : list iter_env) (w : world)
  : option (world * result unit) :=
  run_multithreaded envs w.

End Uploader.

(** ** Concrete processes and answers *)

Module Ex.

Definition row1 : upload_row :=
  mk_upload_row 1 10 100 "/tmp/missing.tif" "pending" 0 None.
Definition row2 : upload_row :=
  mk_upload_row 2 20 200 "/a/b/c.tif" "pending" 4 None.
Definition row3 : upload_row :=
  mk_upload_row 3 30 300 "/a/b/d.tif" "failed" 5 (Some "boom").

Definition record1 : image_record := Db.to_record row1.
Definition record2 : image_record := Db.to_record row2.

Definition database : Database :=
  mk_Database (Some PoolOpen) [row1; row2; row3] [].

(** A wrapper as [__init__] leaves it, the credentials expiring at
    instant 7200 s. *)
Definition wrapper : S3ClientWrapper :=
  mk_S3ClientWrapper "https://s3.example.org" None (Some 0%nat)
    (Some 7200000000).

Definition uploader (errors : Z) : S3ImageUploader :=
  mk_S3ImageUploader database wrapper 3 5 errors 30.

Definition w0 : world := mk_world (uploader 0) [].
Definition w3 : world := mk_world (uploader 3) [].
Definition w4 : world := mk_world (uploader 4) [].

(** The clock at 60 s: no refresh is due. *)
Definition creds : Wrapper.cred_env :=
  Wrapper.mk_cred_env 60000000 (Done 1%nat) (Some 14400000000).

(** The clock at 6900 s, inside the ten-minute buffer. *)
Definition creds_late : Wrapper.cred_env :=
  Wrapper.mk_cred_env 6900000000 (Done 1%nat) (Some 14400000000).

Definition creds_down : Wrapper.cred_env :=
  Wrapper.mk_cred_env 6900000000 (Failed (OtherErr "no endpoint")) None.

Definition not_found : response unit :=
  Failed (ClientErr "404" "Not Found").
Definition unavailable : response unit :=
  Failed (ClientErr "503" "Service Unavailable").

(** The local file is missing while the destination holds the object. *)
Definition env_missing : Uploader.task_env :=
  Uploader.mk_task_env false creds (Done tt) (Done tt) (Done tt)
    None None None.

Definition env_found : Uploader.task_env :=
  Uploader.mk_task_env true creds (Done tt) (Done tt) (Done tt)
    None None None.

Definition env_ok : Uploader.task_env :=
  Uploader.mk_task_env true creds not_found (Done tt) (Done tt)
    None None None.

Definition env_503 : Uploader.task_env :=
  Uploader.mk_task_env true creds unavailable (Done tt) (Done tt)
    None None None.

Definition env_put_503 : Uploader.task_env :=
  Uploader.mk_task_env true creds not_found (Done tt) unavailable
    None None None.

(** Answers to a batch: a transient error to every worker. *)
Definition envs_503 : nat -> Uploader.task_env := fun _ => env_503.

(** A transient error to every worker but the third, whose task goes
    through. *)
Definition envs_reset : nat -> Uploader.task_env :=
  fun j => if Nat.eqb j 2 then env_ok else env_503.

(** A transient error to every worker but the second, whose task is
    found already uploaded. *)
Definition envs_mixed : nat -> Uploader.task_env :=
  fun j => if Nat.eqb j 1 then env_found else env_503.

(** An iteration whose fetch fails, and one whose workers all meet a
    transient error. *)
Definition iter_fault : Uploader.iter_env :=
  Uploader.mk_iter_env (Some "server closed the connection") envs_503.
Definition iter_503 : Uploader.iter_env :=
  Uploader.mk_iter_env None envs_503.

Definition w4_logged : world := fst (Uploader.iteration iter_fault w4).
Definition w4_melted : world := fst (Uploader.iteration iter_503 w4_logged).

(** Further answers: a forbidden probe, a client that cannot be created,
    a refused put, and faults of the INSERT and of the DELETE. *)
Definition env_403 : Uploader.task_env :=
  Uploader.mk_task_env true creds (Failed (ClientErr "403" "Forbidden"))
    (Done tt) (Done tt) None None None.

Definition env_client_down : Uploader.task_env :=
  Uploader.mk_task_env true creds_down (Done tt) (Done tt) (Done tt)
    None None None.

Definition env_put_denied : Uploader.task_env :=
  Uploader.mk_task_env true creds not_found (Done tt)
    (Failed (ClientErr "AccessDenied" "Access Denied")) None None None.

Definition env_insert_fault : Uploader.task_env :=
  Uploader.mk_task_env true creds not_found (Done tt) (Done tt)
    (Some "deadlock detected") None None.

Definition env_delete_fault : Uploader.task_env :=
  Uploader.mk_task_env true creds not_found (Done tt) (Done tt)
    None (Some "deadlock detected") None.

(** A process whose accessor has no pool yet, one whose queue holds a
    retired row only, and one configured with no worker. *)
Definition w_cold : world :=
  mk_world
    (mk_S3ImageUploader (mk_Database None [row1; row2; row3] []) wrapper
       3 5 0 30) [].

Definition w_retired : world :=
  mk_world
    (mk_S3ImageUploader (mk_Database (Some PoolOpen) [row3] []) wrapper
       3 5 0 30) [].

Definition w_no_workers : world :=
  mk_world (mk_S3ImageUploader database wrapper 0 5 0 30) [].

Definition db_config : Py.dict :=
  [("user", "mikro"); ("password", "secret"); ("host", "db.example.org");
   ("port", "5432"); ("database", "imagedb")].

Definition s3_config : Py.dict :=
  [("endpoint_url", "https://s3.example.org")].

(** An iteration whose workers all go through. *)
Definition envs_ok : nat -> Uploader.task_env := fun _ => env_ok.
Definition iter_ok : Uploader.iter_env := Uploader.mk_iter_env None envs_ok.

(** Descents that return a path, nothing, the same path again, and then
    another path for good. *)
Definition finds : nat -> string :=
  fun k =>
    match k with
    | O => "/a/1.tif"
    | S O => ""
    | S (S O) => "/a/1.tif"
    | _ => "/a/2.tif"
    end.

End Ex.

(** ** Vocabulary of the statements *)

(** The refresh is due: it is forced, or no expiry is known, or the clock
    is at or past the known expiry minus ten minutes. *)
Definition refresh_due (force : bool) (c : S3ClientWrapper) (current : Z)
  : Prop :=
  force = true
  \/ _expiry_time c = None
  \/ exists t, _expiry_time c = Some t /\ t - 10 * 60 * 1000000 <= current.

(** The pool of the database accessor is open. *)
Definition store_ready (w : world) : Prop :=
  connection_pool (db (self w)) = Some PoolOpen.

(** The wrapper holds a client, as it does once [__init__] has returned. *)
Definition has_client (w : world) : Prop :=
  exists h, _s3_client (s3_client_wrapper (self w)) = Some h.

(** boto3 yields a client if asked for one. *)
Definition client_ok (env : Uploader.task_env) : Prop :=
  exists h, Wrapper.session_client (Uploader.cred env) = Done h.

(** The events of [get_fresh_s3_client]: one creation when a refresh is
    due, none otherwise. *)
Definition refresh_events (env : Uploader.task_env) (w : world)
  : list event :=
  let c := s3_client_wrapper (self w) in
  if Wrapper.needs_refresh false (_expiry_time c)
       (Wrapper.now (Uploader.cred env))
  then [CreateClient (endpoint_url c)] else [].

(** The queue row [r] after an UPDATE that marks it failed with [msg]. *)
Definition failed_once (msg : string) (r : upload_row) : upload_row :=
  mk_upload_row (id r) (image_id r) (acq_id r) (path r) "failed"
    (retry_count r + 1) (Some msg).

(** A transient response class: error code 503, RequestTimeout or
    ServiceUnavailable. *)
Definition transient (code : string) : Prop :=
  code = "503" \/ code = "RequestTimeout" \/ code = "ServiceUnavailable".

(** The probe of the destination answers not-found. *)
Definition probe_not_found (env : Uploader.task_env) : Prop :=
  exists m, Uploader.head_object env = Failed (ClientErr "404" m).

(** The task meets a transient error: the local file is there, a client
    is at hand, and either the probe fails with a transient code, or the
    probe answers not-found and the transfer fails with a transient
    code. *)
Definition transient_env (env : Uploader.task_env) : Prop :=
  Uploader.isfile env = true
  /\ client_ok env
  /\ ((exists code m, transient code
                      /\ Uploader.head_object env = Failed (ClientErr code m))
      \/ (probe_not_found env
          /\ Uploader.open_file env = Done tt
          /\ exists code m, transient code
                /\ Uploader.put_object env = Failed (ClientErr code m))).

(** The task goes through: the local file is there, a client is at hand,
    the probe answers not-found, the transfer completes and the store
    executes the INSERT and the DELETE. *)
Definition success_env (env : Uploader.task_env) : Prop :=
  Uploader.isfile env = true
  /\ client_ok env
  /\ probe_not_found env
  /\ Uploader.open_file env = Done tt
  /\ Uploader.put_object env = Done tt
  /\ Uploader.insert_fault env = None
  /\ Uploader.delete_fault env = None.

(** The destination holds an object at the key: the probe answers found,
    a client is at hand and the store executes the DELETE. *)
Definition found_env (env : Uploader.task_env) : Prop :=
  client_ok env
  /\ Uploader.head_object env = Done tt
  /\ Uploader.delete_fault env = None.

(** A write to the queue row of task [upload_id]. *)
Definition touches_row (upload_id : Z) (ev : event) : Prop :=
  match ev with
  | DbDelete i => i = upload_id
  | DbMarkFailed i _ => i = upload_id
  | _ => False
  end.

Definition is_transfer (ev : event) : Prop :=
  match ev with
  | OpenFile _ => True
  | PutObject _ _ => True
  | _ => False
  end.

Definition is_ledger_write (ev : event) : Prop :=
  match ev with
  | DbInsert _ => True
  | _ => False
  end.

(** The task is found already uploaded: the local file is there and the
    destination holds the object. *)
Definition skipped_env (env : Uploader.task_env) : Prop :=
  Uploader.isfile env = true /\ found_env env.

(** The probe answers found. *)
Definition answers_found (env : Uploader.task_env) : bool :=
  match Uploader.head_object env with
  | Done _ => true
  | Failed _ => false
  end.

(** How many of the answers [envs i], ..., [envs (i + n - 1)] are not a
    found answer. *)
Definition count_not_found (envs : nat -> Uploader.task_env) (i n : nat)
  : nat :=
  List.length
    (filter (fun e => negb (answers_found e)) (map envs (seq i n))).

(** [log w evs]: the process [w] after the events [evs]. *)
Definition log (w : world) (evs : list event) : world :=
  mk_world (self w) (trace w ++ evs).

(** The iteration answered by [e] meets a meltdown, ending in [w1]: the
    fetch returns a batch, the executor starts, and some worker of the
    batch raises the meltdown signal. *)
Definition batch_melts (e : Uploader.iter_env) (w w1 : world) : Prop :=
  exists w0 pending w2 futures,
    Db.fetch_pending_uploads 50 (Uploader.fetch_fault e) w
    = (w0, Return pending)
    /\ 0 < max_workers (self w0)
    /\ Uploader.run_workers 0 pending (Uploader.worker_env e)
         (log w0 [Log INFO])
       = (w2, Return futures)
    /\ (exists m, In (Raise (S3MeltdownError m)) futures)
    /\ w1 = log w2 [Log WARNING; Log INFO].

(** The loop goes through the iterations answered by [envs] without
    leaving, from [w] to [w']. *)
Inductive loops_on : list Uploader.iter_env -> world -> world -> Prop :=
| loops_nil (w : world) : loops_on [] w w
| loops_cons (e : Uploader.iter_env) (rest : list Uploader.iter_env)
    (w w1 w2 : world) :
    Uploader.iteration e w = (w1, Return Uploader.Continue) ->
    loops_on rest w1 w2 ->
    loops_on (e :: rest) w w2.

(** The process [w] once [close_all_connections] has closed its open
    pool and the loop has logged its stop. *)
Definition closed (w : world) : world :=
  mk_world
    (with_db (mk_Database (Some PoolClosed) (upload_to_s3 (db (self w)))
                (uploaded_s3 (db (self w)))) (self w))
    (trace w ++ [DbCloseAll; Log INFO]).

(** psycopg2's answer on a pool that was closed. *)
Definition pool_closed_error : exn := Exception "connection pool is closed".

(** An error that is neither not-found nor transient at the probe, and
    one that is not transient at the transfer (where 404 has no special
    standing). *)
Definition permanent_at_probe (e : io_error) : Prop :=
  match e with
  | ClientErr code _ => code <> "404" /\ ~ transient code
  | OtherErr _ => True
  end.

Definition permanent_at_transfer (e : io_error) : Prop :=
  match e with
  | ClientErr code _ => ~ transient code
  | OtherErr _ => True
  end.

(** The queue after an UPDATE that marks the rows of [upload_id] failed
    with [msg]. *)
Definition marked (upload_id : Z) (msg : string) (rows : list upload_row)
  : list upload_row :=
  map (fun r => if id r =? upload_id then failed_once msg r else r) rows.

(** The queue after the DELETE of the rows of [upload_id]. *)
Definition without (upload_id : Z) (rows : list upload_row)
  : list upload_row :=
  filter (fun r => negb (id r =? upload_id)) rows.

(** The ledger row [upload_image] writes for [record]. *)
Definition ledger_row (record : image_record) : uploaded_row :=
  mk_uploaded_row (rec_image_id record) (rec_acq_id record)
    (local_path record) (Uploader.s3_path_of (local_path record)) "mikro".

(** The queue row [r'] is the row [r0] at a later time: the same task,
    image, acquisition and path, its retry_count not lower. *)
Definition descends (r' r0 : upload_row) : Prop :=
  id r' = id r0 /\ image_id r' = image_id r0 /\ acq_id r' = acq_id r0
  /\ path r' = path r0 /\ retry_count r0 <= retry_count r'.

(** The uploader [s'] is a later state of [s]: the ledger has only grown
    at its end, every queue row descends from a row that was there, the
    configured threshold, worker count and sleep time are the same, and a
    non-negative meltdown counter has stayed non-negative. *)
Definition progress (s s' : S3ImageUploader) : Prop :=
  (exists added, uploaded_s3 (db s') = uploaded_s3 (db s) ++ added)
  /\ (forall r', In r' (upload_to_s3 (db s')) ->
        exists r0, In r0 (upload_to_s3 (db s)) /\ descends r' r0)
  /\ meltdown_threshold s' = meltdown_threshold s
  /\ max_workers s' = max_workers s
  /\ sleep_time s' = sleep_time s
  /\ (0 <= consecutive_meltdown_errors s ->
      0 <= consecutive_meltdown_errors s').

(** The state of the sampling loop: the chosen paths are distinct and
    non-empty, they are the members of [seen], each was returned by one
    of the descents made so far, and every non-empty path a descent has
    returned so far is among them. *)
Definition sampling (finds : nat -> string) (chosen seen : list string)
    (attempts : Z) : Prop :=
  0 <= attempts
  /\ NoDup chosen
  /\ (forall x, In x seen <-> In x chosen)
  /\ (forall x, In x chosen ->
        x <> "" /\ exists k, Z.of_nat k < attempts /\ finds k = x)
  /\ (forall k, Z.of_nat k < attempts -> finds k <> "" ->
        In (finds k) chosen).

(** * Properties *)

(** ** Key derivation *)

Lemma lstrip_idempotent (chars s : string) :
  Py.lstrip chars (Py.lstrip chars s) = Py.lstrip chars s.
Proof.
  induction s as [|c rest IH]; simpl; [reflexivity|].
  destruct (Py.char_in c chars) eqn:Hc; [exact IH|].
  simpl. rewrite Hc. reflexivity.
Qed.

(** C6: the destination key is a function of the local path alone;
    stripping the leading separators twice gives what stripping once
    gives; the key of "/a/b/c.tif" is "a/b/c.tif"; and the verifier's
    [key_for_local_path] is the uploader's derivation. *)
Theorem key_derivation_idempotent :
  (forall p, Uploader.s3_path_of (Uploader.s3_path_of p)
             = Uploader.s3_path_of p)
  /\ Uploader.s3_path_of "/a/b/c.tif" = "a/b/c.tif"
  /\ (forall p, Verifier.key_for_local_path p = Uploader.s3_path_of p).
Proof.
  split; [|split].
  - intro p. apply lstrip_idempotent.
  - reflexivity.
  - intro p. reflexivity.
Qed.

(** ** The pending queue *)

Lemma firstn_length_le_Z {A} (n : Z) (l : list A) :
  0 <= n -> Z.of_nat (List.length (firstn (Z.to_nat n) l)) <= n.
Proof.
  intro Hn. rewrite length_firstn. lia.
Qed.

Lemma In_firstn {A} (n : nat) (l : list A) (x : A) :
  In x (firstn n l) -> In x l.
Proof.
  revert l; induction n as [|n IH]; intros [|a l] H; simpl in *;
    try contradiction.
  destruct H as [H|H]; [left; exact H | right; apply IH; exact H].
Qed.

(** C5: whatever the limit, a batch that [fetch_pending_uploads] returns
    has at most [limit] records, each the projection of a queue row whose
    retry_count is below 5; and with an open pool, no fault and a
    non-negative limit the call does return. *)
Theorem fetch_pending_uploads_bounded (limit : Z) (fault : option string)
    (w : world) :
  (connection_pool (db (self w)) = Some PoolOpen -> fault = None ->
   0 <= limit ->
   exists w' rows, Db.fetch_pending_uploads limit fault w = (w', Return rows))
  /\
  (forall w' rows,
     Db.fetch_pending_uploads limit fault w = (w', Return rows) ->
     Z.of_nat (List.length rows) <= limit
     /\ Forall (fun t => exists r, In r (upload_to_s3 (db (self w)))
                                   /\ Db.to_record r = t
                                   /\ retry_count r < 5) rows).
Proof.
  unfold Db.fetch_pending_uploads, Db.execute_query, Db.get_connection,
    Db.query_fetch, try_except, bind, emit, get_db, set_db, raise, ret,
    logging, emit.
  simpl. split.
  - intros Hp Hf Hl. rewrite Hp. subst fault. simpl.
    destruct (limit <? 0) eqn:E; [apply Z.ltb_lt in E; lia|].
    simpl. eauto.
  - intros w' rows.
    destruct (connection_pool (db (self w))) as [[|]|]; simpl;
      try discriminate.
    destruct fault; simpl; try discriminate.
    destruct (limit <? 0) eqn:E; simpl; try discriminate.
    apply Z.ltb_ge in E.
    intro H; inversion H; subst; clear H. split.
    + rewrite length_map. apply firstn_length_le_Z; assumption.
    + apply Forall_forall. intros t Ht.
      apply in_map_iff in Ht. destruct Ht as [r [Hr Hin]].
      apply In_firstn in Hin. apply filter_In in Hin.
      destruct Hin as [Hin He]. exists r. repeat split; auto.
      unfold Db.eligible in He. apply Z.ltb_lt in He. exact He.
Qed.

(** ** The credentialed client *)

Lemma needs_refresh_due (force : bool) (c : S3ClientWrapper) (current : Z) :
  Wrapper.needs_refresh force (_expiry_time c) current = true
  <-> refresh_due force c current.
Proof.
  unfold Wrapper.needs_refresh, refresh_due, Wrapper.timedelta_minutes,
    Wrapper.BUFFER_PERIOD_MINUTES.
  destruct force; simpl; [split; auto|].
  destruct (_expiry_time c) as [t|]; simpl; [|split; auto].
  rewrite Z.geb_le. split.
  - intro H. right. right. exists t. split; [reflexivity|lia].
  - intros [H|[H|[t' [H1 H2]]]]; try discriminate.
    inversion H1; subst. lia.
Qed.

(** C8: [_refresh_s3_client] leaves the process untouched when no refresh
    is due; when one is due and boto3 yields a client, that client becomes
    the stored handle and the stored expiry becomes what the credential
    file holds; when one is due and the creation fails, the exception goes
    to the caller after that one attempt, handle and expiry as before; and
    [get_fresh_s3_client] is the unforced refresh followed by a read of
    the stored handle. *)
Theorem refresh_policy (env : Wrapper.cred_env) (force : bool) (w : world) :
  let c := s3_client_wrapper (self w) in
  let attempted := mk_world (self w) (trace w ++ [CreateClient (endpoint_url c)]) in
  (~ refresh_due force c (Wrapper.now env) ->
   Wrapper._refresh_s3_client env force w = (w, Return tt))
  /\ (refresh_due force c (Wrapper.now env) ->
      forall h, Wrapper.session_client env = Done h ->
      Wrapper._refresh_s3_client env force w =
      (mk_world
         (with_wrapper
            (mk_S3ClientWrapper (endpoint_url c) (region c) (Some h)
               (Wrapper.credentials_expiration env)) (self w))
         (trace attempted),
       Return tt))
  /\ (refresh_due force c (Wrapper.now env) ->
      forall e, Wrapper.session_client env = Failed e ->
      Wrapper._refresh_s3_client env force w = (attempted, Raise (to_exn e)))
  /\ Wrapper.get_fresh_s3_client env w =
     match Wrapper._refresh_s3_client env false w with
     | (w', Return _) =>
         (w', Return (_s3_client (s3_client_wrapper (self w'))))
     | (w', Raise e) => (w', Raise e)
     end.
Proof.
  intros c attempted.
  unfold Wrapper.get_fresh_s3_client, Wrapper._refresh_s3_client,
    Wrapper._create_s3_client, Wrapper._read_aws_credentials_expiry,
    Wrapper.get_wrapper, Wrapper.set_wrapper, try_except, bind, emit, raise,
    ret.
  simpl. fold c.
  split; [|split; [|split]].
  - intro Hn.
    destruct (Wrapper.needs_refresh force (_expiry_time c) (Wrapper.now env))
      eqn:E; [|reflexivity].
    exfalso. apply Hn. apply needs_refresh_due. exact E.
  - intros Hd h Hh. apply needs_refresh_due in Hd. rewrite Hd, Hh.
    reflexivity.
  - intros Hd e He. apply needs_refresh_due in Hd. rewrite Hd, He.
    simpl. destruct e; reflexivity.
  - destruct (Wrapper.needs_refresh false (_expiry_time c) (Wrapper.now env));
      [|reflexivity].
    destruct (Wrapper.session_client env) as [h|e]; simpl; [reflexivity|].
    destruct e; reflexivity.
Qed.

(** Once [__init__] has returned, the wrapper holds a client. *)
Lemma init_has_client (endpoint : string) (reg : option string)
    (env : Wrapper.cred_env) (w w' : world) :
  Wrapper.init endpoint reg env w = (w', Return tt) -> has_client w'.
Proof.
  unfold Wrapper.init, Wrapper._refresh_s3_client, Wrapper._create_s3_client,
    Wrapper._read_aws_credentials_expiry, Wrapper.get_wrapper,
    Wrapper.set_wrapper, has_client, try_except, bind, emit, raise, ret.
  simpl.
  destruct (Wrapper.session_client env) as [h|e]; simpl;
    intro H; inversion H; subst; clear H.
  exists h. reflexivity.
Qed.

(** ** One task *)

Ltac unfold_db :=
  unfold Db.mark_as_failed, Db.delete_uploaded_record,
    Db.insert_into_uploaded_s3, Db.fetch_pending_uploads,
    Db.close_all_connections, Db.execute_query, Db.get_connection,
    Db.query_update, Db.query_delete, Db.query_insert, Db.query_fetch.

Ltac unfold_m :=
  unfold try_except, bind, logging, emit, raise, ret, get_self, set_self,
    get_db, set_db.

(** C4: a task whose local file is missing is marked failed with the
    message naming the file and the worker returns soft-failed: every
    queue row with the task's id gets status failed, the message as last
    error and retry_count one higher, every other row is as before, no
    row leaves the queue, the ledger and the meltdown counter are as
    before.  (The store executes the UPDATE: its pool is open and the
    statement meets no fault.) *)
Theorem missing_file_marks_failed (record : image_record)
    (env : Uploader.task_env) (w : world) :
  Uploader.isfile env = false ->
  store_ready w ->
  Uploader.mark_fault env = None ->
  let msg := Uploader.missing_msg (local_path record) in
  exists w',
    Uploader.upload_image record env w = (w', Return Uploader.SoftFailed)
    /\ trace w' = trace w ++ [IsFile (local_path record); Log ERROR;
                              DbMarkFailed (rec_id record) msg; Log INFO]
    /\ List.length (upload_to_s3 (db (self w')))
       = List.length (upload_to_s3 (db (self w)))
    /\ (forall n r, nth_error (upload_to_s3 (db (self w))) n = Some r ->
          nth_error (upload_to_s3 (db (self w'))) n
          = Some (if id r =? rec_id record then failed_once msg r else r))
    /\ uploaded_s3 (db (self w')) = uploaded_s3 (db (self w))
    /\ consecutive_meltdown_errors (self w')
       = consecutive_meltdown_errors (self w).
Proof.
  intros Hfile Hpool Hfault msg.
  unfold store_ready in Hpool.
  unfold Uploader.upload_image, Uploader.os_path_isfile.
  unfold_db. unfold_m. simpl.
  rewrite Hfile. simpl. rewrite Hpool. simpl. rewrite Hfault. simpl.
  eexists. split; [reflexivity|]. simpl.
  repeat rewrite <- app_assoc. simpl.
  split; [reflexivity|]. split; [apply length_map|].
  split; [|split; reflexivity].
  intros n r Hn. rewrite nth_error_map, Hn. reflexivity.
Qed.

Ltac unfold_upload :=
  unfold Uploader.upload_image, Uploader.upload_file_to_s3,
    Uploader.upload_file_to_s3_non_multipart, Uploader.file_exists_in_s3,
    Uploader.count_meltdown_error, Uploader.os_path_isfile,
    Wrapper.get_fresh_s3_client, Wrapper._refresh_s3_client,
    Wrapper._create_s3_client, Wrapper._read_aws_credentials_expiry,
    Wrapper.get_wrapper, Wrapper.set_wrapper.

(** The scrutinee on which the evaluation of [t] is stuck. *)
Ltac scrut_of t :=
  match t with
  | match ?x with _ => _ end => let y := scrut_of x in y
  | match ?x with _ => _ end => x
  | ?f _ => let y := scrut_of f in y
  end.

Ltac case_step H :=
  match type of H with
  | ?lhs = _ => let x := scrut_of lhs in destruct x eqn:?; simpl in H
  end.

Ltac no_meltdown_from_io :=
  match goal with
  | E : to_exn ?e = S3MeltdownError _ |- _ => destruct e; discriminate E
  end.

(** Opens [upload_image record env w = (w', r)] into its executions. *)
Ltac upload_cases H :=
  unfold has_client, store_ready in *;
  revert H; unfold_upload; unfold_db; unfold_m; simpl; intro H;
  repeat (case_step H);
  inversion H; subst; clear H; simpl in *;
  try no_meltdown_from_io.

(** What any execution of [upload_image] does to the uploader's
    attributes and to the pool, by result. *)
Lemma upload_image_cases (record : image_record) (env : Uploader.task_env)
    (w w' : world) (r : result Uploader.outcome) :
  Uploader.upload_image record env w = (w', r) ->
  connection_pool (db (self w')) = connection_pool (db (self w))
  /\ meltdown_threshold (self w') = meltdown_threshold (self w)
  /\ max_workers (self w') = max_workers (self w)
  /\ sleep_time (self w') = sleep_time (self w)
  /\ (has_client w -> has_client w')
  /\ match r with
     | Return Uploader.Succeeded => consecutive_meltdown_errors (self w') = 0
     | Return Uploader.SkippedExisting =>
         consecutive_meltdown_errors (self w')
         = consecutive_meltdown_errors (self w)
     | Raise (S3MeltdownError _) =>
         consecutive_meltdown_errors (self w')
         = consecutive_meltdown_errors (self w) + 1
         /\ meltdown_threshold (self w) <= consecutive_meltdown_errors (self w')
     | _ =>
         consecutive_meltdown_errors (self w')
         = consecutive_meltdown_errors (self w)
         \/ consecutive_meltdown_errors (self w')
            = consecutive_meltdown_errors (self w) + 1
     end.
Proof.
  intro H.
  destruct env as [isf [nw sc ce] ho op po fi fd fm].
  destruct w as [[[p q l] [eu rg cl ex] mw th n sl] tr].
  upload_cases H.
  all: repeat split; auto; try (intros [h Hh]; eauto; discriminate).
  all: try (apply Z.geb_le; assumption).
Qed.

Lemma in_query_delete (upload_id : Z) (rows : list upload_row)
    (r : upload_row) :
  In r (filter (fun r => negb (id r =? upload_id)) rows)
  <-> In r rows /\ id r <> upload_id.
Proof.
  rewrite filter_In. split; intros [H1 H2]; split; auto.
  - intro E. rewrite E, Z.eqb_refl in H2. discriminate.
  - apply Z.eqb_neq in H2. rewrite H2. reflexivity.
Qed.

Ltac flatten_trace :=
  repeat rewrite <- app_assoc; simpl.

(** C9: when [upload_image] raises the meltdown signal, the database is
    exactly as before the call (so every queue row, the task's included,
    keeps its status, retry_count and last error and is fetched as
    before), and the call has issued no [mark_as_failed] and no
    [delete_uploaded_record] for the task. *)
Theorem meltdown_leaves_queue_untouched (record : image_record)
    (env : Uploader.task_env) (w w' : world) (msg : string) :
  Uploader.upload_image record env w = (w', Raise (S3MeltdownError msg)) ->
  db (self w') = db (self w)
  /\ (forall limit, Db.query_fetch limit (db (self w'))
                    = Db.query_fetch limit (db (self w)))
  /\ exists evs, trace w' = trace w ++ evs
                 /\ Forall (fun ev => ~ touches_row (rec_id record) ev) evs.
Proof.
  intro H.
  destruct env as [isf [nw sc ce] ho op po fi fd fm].
  destruct w as [[[p q l] [eu rg cl ex] mw th n sl] tr].
  upload_cases H.
  all: split; [reflexivity|]; split; [reflexivity|].
  all: flatten_trace; eexists; split; [reflexivity|].
  all: repeat constructor; simpl; auto.
Qed.

Ltac open_scenario env w :=
  destruct env as [isf [nw sc ce] ho op po fi fd fm];
  destruct w as [[[p q l] [eu rg cl ex] mw th n sl] tr];
  unfold transient_env, success_env, found_env, probe_not_found, client_ok,
    has_client, store_ready, refresh_events in *;
  simpl in *.

(** A task that meets a transient error adds one to the counter and
    raises the meltdown signal exactly when the new count has reached the
    threshold. *)
Lemma transient_step (record : image_record) (env : Uploader.task_env)
    (w w' : world) (r : result Uploader.outcome) :
  has_client w -> transient_env env ->
  Uploader.upload_image record env w = (w', r) ->
  consecutive_meltdown_errors (self w')
  = consecutive_meltdown_errors (self w) + 1
  /\ is_meltdown r
     = (consecutive_meltdown_errors (self w) + 1
        >=? meltdown_threshold (self w)).
Proof.
  intros Hc Ht H. open_scenario env w.
  destruct Hc as [h0 Hc]. destruct Ht as [Hf [[h Hs] Ht]]. subst.
  destruct Ht as [[code [m [Hcode Hh]]]
                 |[[m0 Hh] [Ho [code [m [Hcode Hp]]]]]]; subst;
    destruct Hcode as [Hcode|[Hcode|Hcode]]; subst.
  all: upload_cases H.
  all: split; [reflexivity|]; simpl; congruence.
Qed.

(** The success path, in full. *)
Lemma success_step (record : image_record) (env : Uploader.task_env)
    (w : world) :
  has_client w -> store_ready w -> success_env env ->
  exists w',
    Uploader.upload_image record env w = (w', Return Uploader.Succeeded)
    /\ trace w' =
       trace w ++ [IsFile (local_path record)] ++ refresh_events env w
       ++ [HeadObject "mikro" (Uploader.s3_path_of (local_path record));
           OpenFile (local_path record);
           PutObject "mikro" (Uploader.s3_path_of (local_path record));
           Log INFO;
           DbInsert (mk_uploaded_row (rec_image_id record)
                       (rec_acq_id record) (local_path record)
                       (Uploader.s3_path_of (local_path record)) "mikro");
           Log INFO;
           DbDelete (rec_id record); Log INFO; Log INFO]
    /\ uploaded_s3 (db (self w')) =
       uploaded_s3 (db (self w))
       ++ [mk_uploaded_row (rec_image_id record) (rec_acq_id record)
             (local_path record)
             (Uploader.s3_path_of (local_path record)) "mikro"]
    /\ upload_to_s3 (db (self w')) =
       filter (fun r => negb (id r =? rec_id record))
         (upload_to_s3 (db (self w)))
    /\ consecutive_meltdown_errors (self w') = 0.
Proof.
  intros Hc Hp Hs.
  destruct (Uploader.upload_image record env w) as [w' r] eqn:H.
  open_scenario env w.
  destruct Hc as [h0 Hc].
  destruct Hs as [Hf [[h Hs] [[m Hh] [Ho [Hput [Hi Hd]]]]]]. subst.
  upload_cases H.
  all: eexists; split; [reflexivity|]; simpl; flatten_trace.
  all: repeat split; reflexivity.
Qed.

(** The already-uploaded path, in full. *)
Lemma found_step (record : image_record) (env : Uploader.task_env)
    (w : world) :
  Uploader.isfile env = true ->
  has_client w -> store_ready w -> found_env env ->
  exists w',
    Uploader.upload_image record env w
    = (w', Return Uploader.SkippedExisting)
    /\ trace w' =
       trace w ++ [IsFile (local_path record)] ++ refresh_events env w
       ++ [HeadObject "mikro" (Uploader.s3_path_of (local_path record));
           Log INFO; DbDelete (rec_id record); Log INFO]
    /\ uploaded_s3 (db (self w')) = uploaded_s3 (db (self w))
    /\ upload_to_s3 (db (self w')) =
       filter (fun r => negb (id r =? rec_id record))
         (upload_to_s3 (db (self w)))
    /\ consecutive_meltdown_errors (self w')
       = consecutive_meltdown_errors (self w).
Proof.
  intros Hf Hc Hp Hs.
  destruct (Uploader.upload_image record env w) as [w' r] eqn:H.
  open_scenario env w.
  destruct Hc as [h0 Hc].
  destruct Hs as [[h Hs] [Hh Hd]]. subst.
  upload_cases H.
  all: eexists; split; [reflexivity|]; simpl; flatten_trace.
  all: repeat split; reflexivity.
Qed.

(** C1: for a task whose local file exists and whose probe answers
    not-found, when the transfer completes (and the store executes the
    INSERT and the DELETE) the worker returns succeeded, the ledger is the
    old ledger followed by the one row
    {image_id, acq_id, local_path, key, "mikro"}, written by
    [insert_into_uploaded_s3] before the DELETE is issued, the queue
    holds exactly the rows whose id is not the task's, and the meltdown
    counter is zero whatever it was. *)
Theorem successful_transfer_recorded (record : image_record)
    (env : Uploader.task_env) (w : world) :
  Uploader.isfile env = true ->
  has_client w -> client_ok env ->
  probe_not_found env ->
  Uploader.open_file env = Done tt ->
  Uploader.put_object env = Done tt ->
  store_ready w ->
  Uploader.insert_fault env = None ->
  Uploader.delete_fault env = None ->
  let key := Uploader.s3_path_of (local_path record) in
  let row := mk_uploaded_row (rec_image_id record) (rec_acq_id record)
               (local_path record) key "mikro" in
  exists w',
    Uploader.upload_image record env w = (w', Return Uploader.Succeeded)
    /\ uploaded_s3 (db (self w')) = uploaded_s3 (db (self w)) ++ [row]
    /\ (exists before between after,
          trace w' = trace w ++ before ++ [DbInsert row] ++ between
                     ++ [DbDelete (rec_id record)] ++ after
          /\ Forall (fun ev => ~ is_ledger_write ev)
               (before ++ between ++ after))
    /\ (forall r, In r (upload_to_s3 (db (self w')))
                  <-> In r (upload_to_s3 (db (self w)))
                      /\ id r <> rec_id record)
    /\ consecutive_meltdown_errors (self w') = 0.
Proof.
  intros Hf Hc Hk Hn Ho Hp Hs Hi Hd key row.
  destruct (success_step record env w Hc Hs) as [w' [E [T [L [Q C]]]]].
  { unfold success_env. auto 10. }
  exists w'. split; [exact E|]. split; [exact L|].
  split; [|split; [|exact C]].
  - eexists (_ :: refresh_events env w ++ [_; _; _; _]), [_], [_; _].
    split.
    + rewrite T. simpl. repeat rewrite <- app_assoc. reflexivity.
    + unfold refresh_events.
      destruct (Wrapper.needs_refresh _ _ _); simpl;
        repeat constructor; simpl; auto.
  - intro r. rewrite Q. apply in_query_delete.
Qed.

(** C3, amended: for a task whose local file exists and whose probe
    answers found (the store executing the DELETE), the worker returns
    skipped-existing, the queue holds exactly the rows whose id is not the
    task's, the ledger is as before, and the call neither opens the file
    nor puts an object nor inserts a ledger row. *)
Theorem existing_object_skipped (record : image_record)
    (env : Uploader.task_env) (w : world) :
  Uploader.isfile env = true ->
  has_client w -> store_ready w -> found_env env ->
  exists w' evs,
    Uploader.upload_image record env w
    = (w', Return Uploader.SkippedExisting)
    /\ (forall r, In r (upload_to_s3 (db (self w')))
                  <-> In r (upload_to_s3 (db (self w)))
                      /\ id r <> rec_id record)
    /\ uploaded_s3 (db (self w')) = uploaded_s3 (db (self w))
    /\ trace w' = trace w ++ evs
    /\ In (DbDelete (rec_id record)) evs
    /\ Forall (fun ev => ~ is_ledger_write ev /\ ~ is_transfer ev) evs.
Proof.
  intros Hf Hc Hs He.
  destruct (found_step record env w Hf Hc Hs He) as [w' [E [T [L [Q C]]]]].
  exists w'. eexists. split; [exact E|].
  split; [intro r; rewrite Q; apply in_query_delete|].
  split; [exact L|]. split; [exact T|].
  unfold refresh_events.
  destruct (Wrapper.needs_refresh _ _ _); simpl; split;
    try (repeat constructor; simpl; tauto); tauto.
Qed.

(** C3 as stated fails where the local file is missing: the destination
    holds the object, yet the worker marks the task failed, returns
    soft-failed, never probes and deletes nothing. *)
Lemma existing_object_missing_file :
  found_env Ex.env_missing /\ has_client Ex.w0 /\ store_ready Ex.w0
  /\ exists w',
       Uploader.upload_image Ex.record1 Ex.env_missing Ex.w0
       = (w', Return Uploader.SoftFailed)
       /\ upload_to_s3 (db (self w'))
          = [failed_once (Uploader.missing_msg "/tmp/missing.tif") Ex.row1;
             Ex.row2; Ex.row3]
       /\ trace w'
          = [IsFile "/tmp/missing.tif"; Log ERROR;
             DbMarkFailed 1 (Uploader.missing_msg "/tmp/missing.tif");
             Log INFO].
Proof.
  split; [|split; [|split]].
  - unfold found_env, client_ok. simpl. eauto.
  - unfold has_client. simpl. eauto.
  - reflexivity.
  - eexists. split; [vm_compute; reflexivity|]. split; reflexivity.
Qed.

(** ** A batch of tasks *)

Lemma run_workers_cons (i : nat) (record : image_record)
    (rest : list image_record) (envs : nat -> Uploader.task_env)
    (w w1 w2 : world) (r : result Uploader.outcome)
    (rs : list (result Uploader.outcome)) :
  Uploader.upload_image record (envs i) w = (w1, r) ->
  Uploader.run_workers (S i) rest envs w1 = (w2, Return rs) ->
  Uploader.run_workers i (record :: rest) envs w = (w2, Return (r :: rs)).
Proof.
  intros H1 H2. simpl. unfold bind, Uploader.future, ret.
  rewrite H1, H2. reflexivity.
Qed.

Lemma run_workers_app (l1 l2 : list image_record)
    (envs : nat -> Uploader.task_env) :
  forall (i : nat) (w w1 w2 : world) (rs1 rs2 : list (result Uploader.outcome)),
    Uploader.run_workers i l1 envs w = (w1, Return rs1) ->
    Uploader.run_workers (i + List.length l1) l2 envs w1 = (w2, Return rs2) ->
    Uploader.run_workers i (l1 ++ l2) envs w = (w2, Return (rs1 ++ rs2)).
Proof.
  induction l1 as [|record rest IH]; intros i w w1 w2 rs1 rs2 H1 H2.
  - simpl in *. unfold ret in H1. inversion H1; subst.
    rewrite Nat.add_0_r in H2. exact H2.
  - simpl in H1. unfold bind, Uploader.future, ret in H1.
    destruct (Uploader.upload_image record (envs i) w) as [wa r] eqn:E.
    destruct (Uploader.run_workers (S i) rest envs wa) as [wb [rs|e]] eqn:F;
      inversion H1; subst.
    simpl List.length in H2. rewrite <- Nat.add_succ_comm in H2.
    simpl app. eapply run_workers_cons; [exact E|].
    eapply IH; eassumption.
Qed.

(** A run of transient errors: every task adds one to the counter, and
    the k-th raises the meltdown signal exactly when the count it reaches
    is at or above the threshold. *)
Lemma transient_run (envs : nat -> Uploader.task_env) :
  forall (records : list image_record) (i : nat) (w : world),
    has_client w ->
    (forall j, (i <= j < i + List.length records)%nat ->
               transient_env (envs j)) ->
    exists w' rs,
      Uploader.run_workers i records envs w = (w', Return rs)
      /\ List.length rs = List.length records
      /\ has_client w'
      /\ connection_pool (db (self w')) = connection_pool (db (self w))
      /\ meltdown_threshold (self w') = meltdown_threshold (self w)
      /\ consecutive_meltdown_errors (self w')
         = consecutive_meltdown_errors (self w)
           + Z.of_nat (List.length records)
      /\ forall k r, nth_error rs k = Some r ->
           is_meltdown r
           = (consecutive_meltdown_errors (self w) + Z.of_nat k + 1
              >=? meltdown_threshold (self w)).
Proof.
  induction records as [|record rest IH]; intros i w Hc Ht.
  - exists w, []. simpl. unfold ret. repeat split; auto; try lia.
    intros [|k] r H; discriminate H.
  - destruct (Uploader.upload_image record (envs i) w) as [w1 r1] eqn:E.
    assert (Hi : transient_env (envs i)) by (apply Ht; simpl; lia).
    destruct (transient_step _ _ _ _ _ Hc Hi E) as [Hn Hm].
    destruct (upload_image_cases _ _ _ _ _ E) as [Hp [Hth [_ [_ [Hc1 _]]]]].
    destruct (IH (S i) w1 (Hc1 Hc)) as [w2 [rs [R [Hl [Hc2 [Hp2 [Ht2 [Hn2 Hk]]]]]]]].
    { intros j Hj. apply Ht. simpl. lia. }
    exists w2, (r1 :: rs). split; [eapply run_workers_cons; eassumption|].
    simpl List.length. repeat split; auto; try congruence; try lia.
    intros [|k] r H; simpl in H.
    + inversion H; subst. rewrite Hm. f_equal. lia.
    + rewrite (Hk k r H), Hn, Hth. f_equal. lia.
Qed.

Lemma geb_true_iff_succ (k N : nat) :
  (k < N)%nat ->
  (0 + Z.of_nat k + 1 >=? Z.of_nat N) = true <-> S k = N.
Proof.
  intro H. rewrite Z.geb_le. lia.
Qed.

(** C2: with the counter at zero and the threshold at N >= 1, a run of N
    tasks that each meet a transient error (code 503, RequestTimeout or
    ServiceUnavailable, at the probe or at the transfer) raises the
    meltdown signal at the N-th task and at no earlier one; and when a
    task succeeds after k < N such errors, no signal has been raised, the
    counter is zero after the success, and of N further transient errors
    again the N-th, and only it, raises the signal. *)
Theorem breaker_trips_on_threshold (N : nat) (w : world)
    (envs : nat -> Uploader.task_env) :
  (1 <= N)%nat ->
  meltdown_threshold (self w) = Z.of_nat N ->
  consecutive_meltdown_errors (self w) = 0 ->
  has_client w ->
  (forall records,
     List.length records = N ->
     (forall j, (j < N)%nat -> transient_env (envs j)) ->
     exists w' rs,
       Uploader.run_workers 0 records envs w = (w', Return rs)
       /\ List.length rs = N
       /\ forall k r, nth_error rs k = Some r ->
            (is_meltdown r = true <-> S k = N))
  /\
  (forall k pre s post,
     (k < N)%nat -> store_ready w ->
     List.length pre = k -> List.length post = N ->
     (forall j, (j < k)%nat -> transient_env (envs j)) ->
     success_env (envs k) ->
     (forall j, (k < j <= k + N)%nat -> transient_env (envs j)) ->
     exists w1 rs1 w' rs2,
       Uploader.run_workers 0 (pre ++ [s]) envs w
       = (w1, Return (rs1 ++ [Return Uploader.Succeeded]))
       /\ List.length rs1 = k
       /\ (forall r, In r rs1 -> is_meltdown r = false)
       /\ consecutive_meltdown_errors (self w1) = 0
       /\ Uploader.run_workers 0 (pre ++ s :: post) envs w
          = (w', Return (rs1 ++ Return Uploader.Succeeded :: rs2))
       /\ List.length rs2 = N
       /\ forall j r, nth_error rs2 j = Some r ->
            (is_meltdown r = true <-> S j = N)).
Proof.
  intros HN Hth H0 Hc. split.
  - intros records Hl Ht.
    destruct (transient_run envs records 0%nat w Hc)
      as [w' [rs [R [Hlen [_ [_ [_ [_ Hk]]]]]]]].
    { intros j Hj. apply Ht. lia. }
    exists w', rs. split; [exact R|]. split; [congruence|].
    intros k r Hr. rewrite (Hk k r Hr), H0, Hth.
    apply geb_true_iff_succ.
    assert (k < List.length rs)%nat by (apply nth_error_Some; congruence).
    lia.
  - intros k pre s post Hk Hs Hpre Hpost Ht1 Hok Ht2.
    destruct (transient_run envs pre 0%nat w Hc)
      as [wa [rs1 [R1 [Hl1 [Hca [Hpa [Htha [Hna Hf1]]]]]]]].
    { intros j Hj. apply Ht1. lia. }
    assert (Hsa : store_ready wa).
    { unfold store_ready in *. congruence. }
    destruct (success_step s (envs k) wa Hca Hsa Hok)
      as [w1 [E [_ [_ [_ Hz]]]]].
    destruct (upload_image_cases _ _ _ _ _ E) as [_ [Hth1 [_ [_ [Hc1 _]]]]].
    destruct (transient_run envs post (S k) w1 (Hc1 Hca))
      as [w' [rs2 [R2 [Hl2 [_ [_ [_ [_ Hf2]]]]]]]].
    { intros j Hj. apply Ht2. lia. }
    exists w1, rs1, w', rs2.
    split; [|split; [congruence|split; [|split; [exact Hz|split;
      [|split; [congruence|]]]]]].
    + eapply run_workers_app; [exact R1|].
      rewrite Nat.add_0_l, Hpre. eapply run_workers_cons; [exact E|].
      reflexivity.
    + intros r Hr. apply In_nth_error in Hr. destruct Hr as [j Hj].
      rewrite (Hf1 j r Hj), H0, Hth.
      assert (j < List.length rs1)%nat by (apply nth_error_Some; congruence).
      destruct (0 + Z.of_nat j + 1 >=? Z.of_nat N) eqn:G; [|reflexivity].
      apply Z.geb_le in G. lia.
    + eapply run_workers_app; [exact R1|].
      rewrite Nat.add_0_l, Hpre.
      eapply run_workers_cons; [exact E|exact R2].
    + intros j r Hr. rewrite (Hf2 j r Hr), Hz, Hth1, Htha, Hth.
      apply geb_true_iff_succ.
      assert (j < List.length rs2)%nat by (apply nth_error_Some; congruence).
      lia.
Qed.

Lemma transient_answers (e : Uploader.task_env) :
  transient_env e -> answers_found e = false.
Proof.
  unfold transient_env, probe_not_found, answers_found.
  intros [_ [_ [[c [m [_ H]]]|[[m H] _]]]]; rewrite H; reflexivity.
Qed.

Lemma skipped_answers (e : Uploader.task_env) :
  skipped_env e -> answers_found e = true.
Proof.
  unfold skipped_env, found_env, answers_found.
  intros [_ [_ [H _]]]. rewrite H. reflexivity.
Qed.

Lemma count_not_found_S (envs : nat -> Uploader.task_env) (i n : nat) :
  count_not_found envs i (S n)
  = ((if answers_found (envs i) then 0 else 1)
     + count_not_found envs (S i) n)%nat.
Proof.
  unfold count_not_found. simpl.
  destruct (answers_found (envs i)); reflexivity.
Qed.

(** Transient errors interleaved with already-uploaded tasks: the counter
    grows by the number of transient errors, and each already-uploaded
    task comes out skipped-existing. *)
Lemma mixed_run (envs : nat -> Uploader.task_env) :
  forall (records : list image_record) (i : nat) (w : world),
    has_client w -> store_ready w ->
    (forall j, (i <= j < i + List.length records)%nat ->
               transient_env (envs j) \/ skipped_env (envs j)) ->
    exists w' rs,
      Uploader.run_workers i records envs w = (w', Return rs)
      /\ consecutive_meltdown_errors (self w')
         = consecutive_meltdown_errors (self w)
           + Z.of_nat (count_not_found envs i (List.length records))
      /\ forall k, (k < List.length records)%nat ->
           skipped_env (envs (i + k)%nat) ->
           nth_error rs k = Some (Return Uploader.SkippedExisting).
Proof.
  induction records as [|record rest IH]; intros i w Hc Hs Hm.
  - exists w, []. simpl. unfold ret, count_not_found. simpl.
    split; [reflexivity|]. split; [lia|]. intros k Hk. lia.
  - destruct (Uploader.upload_image record (envs i) w) as [w1 r1] eqn:E.
    destruct (upload_image_cases _ _ _ _ _ E) as [Hp [_ [_ [_ [Hc1 _]]]]].
    assert (Hs1 : store_ready w1) by (unfold store_ready in *; congruence).
    destruct (IH (S i) w1 (Hc1 Hc) Hs1) as [w2 [rs [R [Hn Hk]]]].
    { intros j Hj. apply Hm. simpl. lia. }
    exists w2, (r1 :: rs). split; [eapply run_workers_cons; eassumption|].
    simpl List.length. rewrite count_not_found_S.
    destruct (Hm i) as [Ht|Hf]; [simpl; lia| |].
    + destruct (transient_step _ _ _ _ _ Hc Ht E) as [Hn1 _].
      rewrite (transient_answers _ Ht). split; [lia|].
      intros [|k] Hlt Hsk.
      * rewrite Nat.add_0_r in Hsk.
        pose proof (skipped_answers _ Hsk) as A1.
        pose proof (transient_answers _ Ht) as A2. congruence.
      * simpl. apply Hk; [lia|].
        replace (S i + k)%nat with (i + S k)%nat by lia. exact Hsk.
    + destruct Hf as [Hfile Hfound].
      destruct (found_step record (envs i) w Hfile Hc Hs Hfound)
        as [w1' [E' [_ [_ [_ Hsame]]]]].
      rewrite E in E'. inversion E'; subst w1' r1.
      rewrite (skipped_answers (envs i)) by (split; assumption).
      split; [lia|].
      intros [|k] Hlt Hsk; [reflexivity|].
      simpl. apply Hk; [lia|].
        replace (S i + k)%nat with (i + S k)%nat by lia. exact Hsk.
Qed.

(** C10: a call that comes out skipped-existing leaves the meltdown
    counter as it was; any call that does not come out succeeded leaves
    the counter as it was or one higher, so only the success path sets it
    back; and over a batch that interleaves transient errors with
    already-uploaded tasks the counter grows by the number of transient
    errors, each already-uploaded task coming out skipped-existing. *)
Theorem skipped_existing_keeps_counter :
  (forall record env w w',
     Uploader.upload_image record env w
     = (w', Return Uploader.SkippedExisting) ->
     consecutive_meltdown_errors (self w')
     = consecutive_meltdown_errors (self w))
  /\ (forall record env w w' r,
        Uploader.upload_image record env w = (w', r) ->
        r <> Return Uploader.Succeeded ->
        consecutive_meltdown_errors (self w')
        = consecutive_meltdown_errors (self w)
        \/ consecutive_meltdown_errors (self w')
           = consecutive_meltdown_errors (self w) + 1)
  /\ (forall records envs w,
        has_client w -> store_ready w ->
        (forall j, (j < List.length records)%nat ->
                   transient_env (envs j) \/ skipped_env (envs j)) ->
        exists w' rs,
          Uploader.run_workers 0 records envs w = (w', Return rs)
          /\ consecutive_meltdown_errors (self w')
             = consecutive_meltdown_errors (self w)
               + Z.of_nat (count_not_found envs 0 (List.length records))
          /\ forall k, (k < List.length records)%nat ->
               skipped_env (envs k) ->
               nth_error rs k = Some (Return Uploader.SkippedExisting)).
Proof.
  split; [|split].
  - intros record env w w' H.
    destruct (upload_image_cases _ _ _ _ _ H) as [_ [_ [_ [_ [_ C]]]]].
    exact C.
  - intros record env w w' r H Hr.
    destruct (upload_image_cases _ _ _ _ _ H) as [_ [_ [_ [_ [_ C]]]]].
    destruct r as [[| |]|[m|c m|m]]; auto.
    + congruence.
    + right. apply C.
  - intros records envs w Hc Hs Hm.
    apply (mixed_run envs records 0%nat w Hc Hs).
    intros j Hj. apply Hm. lia.
Qed.

(** ** The scheduler loop *)

Lemma with_db_same (s : S3ImageUploader) : with_db (db s) s = s.
Proof. destruct s; reflexivity. Qed.

Lemma fetch_returns (limit : Z) (fault : option string) (w w0 : world)
    (pending : list image_record) :
  Db.fetch_pending_uploads limit fault w = (w0, Return pending) ->
  connection_pool (db (self w)) = Some PoolOpen
  /\ w0 = log w [DbFetch limit].
Proof.
  unfold Db.fetch_pending_uploads, Db.execute_query, Db.get_connection,
    Db.query_fetch, log.
  unfold_m. simpl.
  destruct (connection_pool (db (self w))) as [[|]|]; simpl;
    try discriminate.
  destruct fault; simpl; try discriminate.
  destruct (limit <? 0); simpl; try discriminate.
  intro H; inversion H; subst. split; [reflexivity|].
  rewrite with_db_same. reflexivity.
Qed.

Lemma run_workers_returns (envs : nat -> Uploader.task_env) :
  forall (records : list image_record) (i : nat) (w : world),
    exists w' rs,
      Uploader.run_workers i records envs w = (w', Return rs)
      /\ connection_pool (db (self w')) = connection_pool (db (self w))
      /\ max_workers (self w') = max_workers (self w).
Proof.
  induction records as [|record rest IH]; intros i w.
  - exists w, []. repeat split.
  - destruct (Uploader.upload_image record (envs i) w) as [w1 r1] eqn:E.
    destruct (upload_image_cases _ _ _ _ _ E) as [Hp [_ [Hm _]]].
    destruct (IH (S i) w1) as [w2 [rs [R [Hp2 Hm2]]]].
    exists w2, (r1 :: rs). split; [eapply run_workers_cons; eassumption|].
    split; congruence.
Qed.

Lemma existsb_meltdown (futures : list (result Uploader.outcome)) :
  existsb is_meltdown futures = true
  <-> exists m, In (Raise (S3MeltdownError m)) futures.
Proof.
  rewrite existsb_exists. split.
  - intros [r [Hin Hr]]. destruct r as [a|[m|c m|m]]; try discriminate.
    exists m. exact Hin.
  - intros [m Hin]. exists (Raise (S3MeltdownError m)). split; auto.
Qed.

Lemma collect_results_spec (futures : list (result Uploader.outcome))
    (w : world) :
  Uploader.collect_results futures w
  = if existsb is_meltdown futures
    then (log w [Log WARNING], Return true)
    else (w, Return false).
Proof.
  induction futures as [|r rest IH]; [reflexivity|].
  destruct r as [a|[m|c m|m]]; simpl; try exact IH.
  reflexivity.
Qed.

(** The body on a batch for which the executor starts. *)
Lemma loop_body_batch (e : Uploader.iter_env) (w w0 w2 : world)
    (pending : list image_record) (futures : list (result Uploader.outcome)) :
  Db.fetch_pending_uploads 50 (Uploader.fetch_fault e) w
  = (w0, Return pending) ->
  pending <> [] ->
  0 < max_workers (self w0) ->
  Uploader.run_workers 0 pending (Uploader.worker_env e) (log w0 [Log INFO])
  = (w2, Return futures) ->
  Uploader.loop_body e w
  = if existsb is_meltdown futures
    then (log w2 [Log WARNING; Log INFO], Return Uploader.Break)
    else (w2, Return Uploader.Continue).
Proof.
  intros F Hne Hm R.
  unfold Uploader.loop_body. unfold bind at 1. rewrite F.
  destruct pending as [|p ps]; [congruence|].
  unfold bind at 1. unfold logging, emit at 1.
  unfold bind at 1. unfold get_self at 1.
  unfold bind at 1. unfold Uploader.thread_pool_executor. cbn [self].
  assert (G : (max_workers (self w0) <=? 0) = false)
    by (apply Z.leb_gt; exact Hm).
  rewrite G. unfold ret at 1. unfold bind at 1.
  unfold log in R. rewrite R.
  unfold bind at 1. rewrite collect_results_spec.
  destruct (existsb is_meltdown futures); [|reflexivity].
  unfold_m. unfold log. simpl. rewrite <- app_assoc. reflexivity.
Qed.

Lemma loop_body_fetch_raises (e : Uploader.iter_env) (w w0 : world)
    (ex : exn) :
  Db.fetch_pending_uploads 50 (Uploader.fetch_fault e) w = (w0, Raise ex) ->
  Uploader.loop_body e w = (w0, Raise ex).
Proof.
  intro F. unfold Uploader.loop_body. unfold bind at 1. rewrite F.
  reflexivity.
Qed.

Lemma loop_body_empty (e : Uploader.iter_env) (w w0 : world) :
  Db.fetch_pending_uploads 50 (Uploader.fetch_fault e) w = (w0, Return []) ->
  Uploader.loop_body e w
  = if sleep_time (self w0) <? 0
    then (log w0 [Log INFO],
          Raise (Exception "sleep length must be non-negative"))
    else (log w0 [Log INFO; Sleep (sleep_time (self w0))],
          Return Uploader.Continue).
Proof.
  intro F. unfold Uploader.loop_body. unfold bind at 1. rewrite F.
  unfold Uploader.time_sleep, log. unfold_m. simpl.
  destruct (sleep_time (self w0) <? 0); simpl; [reflexivity|].
  rewrite <- app_assoc. reflexivity.
Qed.

Lemma loop_body_no_executor (e : Uploader.iter_env) (w w0 : world)
    (p : image_record) (ps : list image_record) :
  Db.fetch_pending_uploads 50 (Uploader.fetch_fault e) w
  = (w0, Return (p :: ps)) ->
  max_workers (self w0) <= 0 ->
  Uploader.loop_body e w
  = (log w0 [Log INFO],
     Raise (Exception "max_workers must be greater than 0")).
Proof.
  intros F Hm. unfold Uploader.loop_body. unfold bind at 1. rewrite F.
  unfold bind at 1. unfold logging, emit at 1.
  unfold bind at 1. unfold get_self at 1.
  unfold bind at 1. unfold Uploader.thread_pool_executor. cbn [self].
  assert (G : (max_workers (self w0) <=? 0) = true)
    by (apply Z.leb_le; exact Hm).
  rewrite G. reflexivity.
Qed.

(** The handler of the loop catches whatever the body raises. *)
Lemma iteration_returns (e : Uploader.iter_env) (w : world) :
  exists w1 c, Uploader.iteration e w = (w1, Return c).
Proof.
  unfold Uploader.iteration, try_except.
  destruct (Uploader.loop_body e w) as [w1 [c|ex]]; [eauto|].
  eexists. eexists. reflexivity.
Qed.

Lemma iteration_raise (e : Uploader.iter_env) (w w1 : world) (ex : exn) :
  Uploader.loop_body e w = (w1, Raise ex) ->
  Uploader.iteration e w = (log w1 [Log EXCEPTION], Return Uploader.Continue).
Proof.
  intro L. unfold Uploader.iteration, try_except. rewrite L. reflexivity.
Qed.

(** An iteration leaves the loop exactly when its batch meets a
    meltdown. *)
Lemma iteration_break_iff (e : Uploader.iter_env) (w w1 : world) :
  Uploader.iteration e w = (w1, Return Uploader.Break)
  <-> batch_melts e w w1.
Proof.
  split.
  - intro H. unfold Uploader.iteration, try_except in H.
    destruct (Uploader.loop_body e w) as [wl [c|ex]] eqn:L;
      [|discriminate H].
    inversion H; subst wl c; clear H.
    destruct (Db.fetch_pending_uploads 50 (Uploader.fetch_fault e) w)
      as [w0 [pending|ex]] eqn:F.
    + destruct pending as [|p ps].
      * rewrite (loop_body_empty _ _ _ F) in L.
        destruct (sleep_time (self w0) <? 0); discriminate L.
      * destruct (Z_lt_le_dec 0 (max_workers (self w0))) as [Hm|Hm].
        -- destruct (run_workers_returns (Uploader.worker_env e) (p :: ps)
                       0%nat (log w0 [Log INFO])) as [w2 [futures [R _]]].
           assert (Hne : p :: ps <> []) by discriminate.
           rewrite (loop_body_batch _ _ _ _ _ _ F Hne Hm R) in L.
           destruct (existsb is_meltdown futures) eqn:X; [|discriminate L].
           inversion L; subst w1.
           exists w0, (p :: ps), w2, futures.
           repeat split; auto. apply existsb_meltdown. exact X.
        -- rewrite (loop_body_no_executor _ _ _ _ _ F Hm) in L.
           discriminate L.
    + rewrite (loop_body_fetch_raises _ _ _ _ F) in L. discriminate L.
  - intros [w0 [pending [w2 [futures [F [Hm [R [X E]]]]]]]].
    assert (Hne : pending <> []).
    { intro Hp. subst pending. simpl in R. unfold ret in R.
      inversion R; subst futures. destruct X as [m []]. }
    unfold Uploader.iteration, try_except.
    rewrite (loop_body_batch _ _ _ _ _ _ F Hne Hm R).
    apply existsb_meltdown in X. rewrite X. subst w1. reflexivity.
Qed.

Lemma close_open (w : world) :
  connection_pool (db (self w)) = Some PoolOpen ->
  (Db.close_all_connections ;;; logging INFO) w = (closed w, Return tt).
Proof.
  intro H. unfold Db.close_all_connections, closed. unfold_m. simpl.
  rewrite H. simpl. rewrite <- app_assoc. reflexivity.
Qed.

Lemma batch_melts_pool (e : Uploader.iter_env) (w w1 : world) :
  batch_melts e w w1 -> connection_pool (db (self w1)) = Some PoolOpen.
Proof.
  intros [w0 [pending [w2 [futures [F [_ [R [_ E]]]]]]]].
  destruct (fetch_returns _ _ _ _ _ F) as [Hp Hw0].
  destruct (run_workers_returns (Uploader.worker_env e) pending 0%nat
              (log w0 [Log INFO])) as [w2' [rs [R' [Hp2 _]]]].
  rewrite R in R'. inversion R'; subst w2' rs w1 w0. simpl in *.
  congruence.
Qed.

Lemma run_break (e : Uploader.iter_env) (rest : list Uploader.iter_env)
    (w w1 : world) :
  batch_melts e w w1 ->
  Uploader.run_multithreaded (e :: rest) w = Some (closed w1, Return tt).
Proof.
  intro B. pose proof (batch_melts_pool _ _ _ B) as Hp.
  apply iteration_break_iff in B. simpl. rewrite B.
  rewrite (close_open _ Hp). reflexivity.
Qed.

Lemma run_loops_on (pre : list Uploader.iter_env) :
  forall (rest : list Uploader.iter_env) (w w0 : world),
    loops_on pre w w0 ->
    Uploader.run_multithreaded (pre ++ rest) w
    = Uploader.run_multithreaded rest w0.
Proof.
  induction pre as [|e pre IH]; intros rest w w0 H; inversion H; subst.
  - reflexivity.
  - simpl. match goal with I : Uploader.iteration _ _ = _ |- _ =>
      rewrite I end.
    apply IH. assumption.
Qed.

Lemma run_stops (envs : list Uploader.iter_env) :
  forall (w w' : world) (r : result unit),
    Uploader.run_multithreaded envs w = Some (w', r) ->
    exists pre e post w0 w1,
      envs = pre ++ e :: post
      /\ loops_on pre w w0
      /\ batch_melts e w0 w1
      /\ w' = closed w1 /\ r = Return tt.
Proof.
  induction envs as [|e rest IH]; intros w w' r H; [discriminate H|].
  simpl in H.
  destruct (Uploader.iteration e w) as [w1 [[|]|ex]] eqn:I.
  - destruct (IH _ _ _ H) as [pre [e' [post [w0 [w2 [E [L [B [W R]]]]]]]]].
    exists (e :: pre), e', post, w0, w2. subst rest.
    repeat split; auto. econstructor; eassumption.
  - pose proof I as B. apply iteration_break_iff in B.
    rewrite (close_open _ (batch_melts_pool _ _ _ B)) in H.
    inversion H; subst.
    exists [], e, rest, w, w1. repeat split; auto. constructor.
  - destruct (iteration_returns e w) as [wa [c Hc]]. congruence.
Qed.

(** C7: the loop returns only when the batch of some iteration has met a
    meltdown, every iteration before it having gone on; it then returns
    at that iteration whatever would have followed, its last events being
    the release of the pool and the final log record, nothing else after
    the batch, and the pool is closed; a batch that meets a meltdown
    always ends the loop so; and whatever the body of an iteration raises
    (a failed fetch, an executor that cannot start) is logged by the
    handler and the loop goes on with the next iteration. *)
Theorem scheduler_stops_only_on_meltdown :
  (forall envs w w' r,
     Uploader.run_multithreaded envs w = Some (w', r) ->
     exists pre e post w0 w1,
       envs = pre ++ e :: post
       /\ loops_on pre w w0
       /\ batch_melts e w0 w1
       /\ r = Return tt
       /\ connection_pool (db (self w')) = Some PoolClosed
       /\ trace w' = trace w1 ++ [DbCloseAll; Log INFO]
       /\ forall post',
            Uploader.run_multithreaded (pre ++ e :: post') w = Some (w', r))
  /\ (forall pre e post w w0 w1,
        loops_on pre w w0 -> batch_melts e w0 w1 ->
        exists w',
          Uploader.run_multithreaded (pre ++ e :: post) w
          = Some (w', Return tt)
          /\ connection_pool (db (self w')) = Some PoolClosed
          /\ trace w' = trace w1 ++ [DbCloseAll; Log INFO])
  /\ (forall e rest w w1 ex,
        Uploader.loop_body e w = (w1, Raise ex) ->
        Uploader.run_multithreaded (e :: rest) w
        = Uploader.run_multithreaded rest (log w1 [Log EXCEPTION]))
  /\ (forall e rest w m,
        store_ready w -> Uploader.fetch_fault e = Some m ->
        Uploader.run_multithreaded (e :: rest) w
        = Uploader.run_multithreaded rest
            (log w [DbFetch 50; Log EXCEPTION; Log EXCEPTION])).
Proof.
  split; [|split; [|split]].
  - intros envs w w' r H.
    destruct (run_stops envs w w' r H)
      as [pre [e [post [w0 [w1 [E [L [B [W R]]]]]]]]].
    exists pre, e, post, w0, w1. subst w' r.
    repeat split; auto.
    intro post'. rewrite (run_loops_on pre _ w w0 L).
    apply run_break. exact B.
  - intros pre e post w w0 w1 L B.
    exists (closed w1). split; [|split; reflexivity].
    rewrite (run_loops_on pre _ w w0 L). apply run_break. exact B.
  - intros e rest w w1 ex L. simpl.
    rewrite (iteration_raise _ _ _ _ L). reflexivity.
  - intros e rest w m Hs Hf. simpl.
    unfold Uploader.iteration, Uploader.loop_body, try_except.
    unfold bind at 1.
    unfold Db.fetch_pending_uploads, Db.execute_query, Db.get_connection.
    unfold store_ready in Hs. unfold_m. simpl. rewrite Hs, Hf. simpl.
    unfold log. repeat rewrite <- app_assoc. reflexivity.
Qed.

(** * The statements at concrete processes *)

Lemma fetch_pending_uploads_bounded_witness :
  exists w' rows,
    Db.fetch_pending_uploads 1 None Ex.w0 = (w', Return rows)
    /\ Z.of_nat (List.length rows) <= 1
    /\ Forall (fun t => exists r, In r (upload_to_s3 (db (self Ex.w0)))
                                  /\ Db.to_record r = t
                                  /\ retry_count r < 5) rows.
Proof.
  destruct (fetch_pending_uploads_bounded 1 None Ex.w0) as [T B].
  destruct (T eq_refl eq_refl ltac:(lia)) as [w' [rows E]].
  exists w', rows. split; [exact E|]. exact (B w' rows E).
Defined.

Lemma refresh_policy_witness :
  Wrapper._refresh_s3_client Ex.creds false Ex.w0 = (Ex.w0, Return tt)
  /\ (exists w',
        Wrapper._refresh_s3_client Ex.creds_late false Ex.w0
        = (w', Return tt)
        /\ _s3_client (s3_client_wrapper (self w')) = Some 1%nat
        /\ _expiry_time (s3_client_wrapper (self w')) = Some 14400000000)
  /\ (exists w',
        Wrapper._refresh_s3_client Ex.creds_down false Ex.w0
        = (w', Raise (Exception "no endpoint"))
        /\ s3_client_wrapper (self w') = Ex.wrapper).
Proof.
  split; [|split].
  - pose proof (refresh_policy Ex.creds false Ex.w0) as P. cbv zeta in P.
    apply (proj1 P). unfold refresh_due. simpl.
    intros [H|[H|[t [H1 H2]]]]; try discriminate.
    inversion H1; subst. lia.
  - pose proof (refresh_policy Ex.creds_late false Ex.w0) as P.
    cbv zeta in P. destruct P as [_ [P _]].
    eexists. split.
    + apply P with (h := 1%nat); [|reflexivity].
      right. right. exists 7200000000. split; [reflexivity|]. simpl. lia.
    + split; reflexivity.
  - pose proof (refresh_policy Ex.creds_down false Ex.w0) as P.
    cbv zeta in P. destruct P as [_ [_ [P _]]].
    eexists. split.
    + apply (P ltac:(right; right; exists 7200000000; split;
                     [reflexivity|simpl; lia])
               (OtherErr "no endpoint") eq_refl).
    + reflexivity.
Defined.

Lemma missing_file_marks_failed_witness :
  exists w',
    Uploader.upload_image Ex.record1 Ex.env_missing Ex.w3
    = (w', Return Uploader.SoftFailed)
    /\ nth_error (upload_to_s3 (db (self w'))) 0
       = Some (mk_upload_row 1 10 100 "/tmp/missing.tif" "failed" 1
                 (Some "Local file /tmp/missing.tif does not exist."))
    /\ consecutive_meltdown_errors (self w') = 3.
Proof.
  destruct (missing_file_marks_failed Ex.record1 Ex.env_missing Ex.w3
              eq_refl eq_refl eq_refl) as [w' [E [_ [_ [R [_ C]]]]]].
  exists w'. split; [exact E|]. split; [|exact C].
  apply (R 0%nat Ex.row1 eq_refl).
Defined.

Lemma meltdown_leaves_queue_untouched_witness :
  exists w',
    Uploader.upload_image Ex.record2 Ex.env_503 Ex.w4
    = (w', Raise (S3MeltdownError Uploader.meltdown_msg))
    /\ db (self w') = Ex.database.
Proof.
  destruct (Uploader.upload_image Ex.record2 Ex.env_503 Ex.w4)
    as [w' r] eqn:E.
  assert (R : r = Raise (S3MeltdownError Uploader.meltdown_msg)).
  { vm_compute in E. inversion E. reflexivity. }
  subst r. exists w'. split; [reflexivity|].
  exact (proj1 (meltdown_leaves_queue_untouched _ _ _ _ _ E)).
Defined.

Lemma ex_has_client (n : Z) : has_client (mk_world (Ex.uploader n) []).
Proof. exists 0%nat. reflexivity. Defined.

Lemma ex_client_ok_503 : client_ok Ex.env_503.
Proof. exists 1%nat. reflexivity. Defined.

Lemma ex_transient_503 : transient_env Ex.env_503.
Proof.
  split; [reflexivity|]. split; [exact ex_client_ok_503|].
  left. exists "503", "Service Unavailable".
  split; [left; reflexivity|reflexivity].
Defined.

Lemma ex_success_ok : success_env Ex.env_ok.
Proof.
  split; [reflexivity|]. split; [exists 1%nat; reflexivity|].
  split; [exists "Not Found"; reflexivity|].
  repeat split; reflexivity.
Defined.

Lemma ex_found : found_env Ex.env_found.
Proof.
  split; [exists 1%nat; reflexivity|]. split; reflexivity.
Defined.

Lemma successful_transfer_recorded_witness :
  exists w',
    Uploader.upload_image Ex.record2 Ex.env_ok Ex.w3
    = (w', Return Uploader.Succeeded)
    /\ uploaded_s3 (db (self w'))
       = [mk_uploaded_row 20 200 "/a/b/c.tif" "a/b/c.tif" "mikro"]
    /\ consecutive_meltdown_errors (self w') = 0.
Proof.
  destruct (successful_transfer_recorded Ex.record2 Ex.env_ok Ex.w3
              eq_refl (ex_has_client 3)
              (ex_intro _ 1%nat eq_refl)
              (ex_intro _ "Not Found" eq_refl)
              eq_refl eq_refl eq_refl eq_refl eq_refl)
    as [w' [E [L [_ [_ C]]]]].
  exists w'. split; [exact E|]. split; [exact L|exact C].
Defined.

Lemma existing_object_skipped_witness :
  exists w',
    Uploader.upload_image Ex.record2 Ex.env_found Ex.w3
    = (w', Return Uploader.SkippedExisting)
    /\ uploaded_s3 (db (self w')) = []
    /\ ~ In Ex.row2 (upload_to_s3 (db (self w'))).
Proof.
  destruct (existing_object_skipped Ex.record2 Ex.env_found Ex.w3
              eq_refl (ex_has_client 3) eq_refl ex_found)
    as [w' [evs [E [Q [L _]]]]].
  exists w'. split; [exact E|]. split; [exact L|].
  intro H. apply Q in H. destruct H as [_ H]. apply H. reflexivity.
Defined.

Lemma breaker_trips_on_threshold_witness :
  (exists w' rs,
     Uploader.run_workers 0 (repeat Ex.record2 5) Ex.envs_503 Ex.w0
     = (w', Return rs)
     /\ List.length rs = 5%nat
     /\ forall k r, nth_error rs k = Some r ->
          (is_meltdown r = true <-> S k = 5%nat))
  /\ (exists w1 rs1 w' rs2,
        Uploader.run_workers 0 (repeat Ex.record2 2 ++ [Ex.record1])
          Ex.envs_reset Ex.w0
        = (w1, Return (rs1 ++ [Return Uploader.Succeeded]))
        /\ consecutive_meltdown_errors (self w1) = 0
        /\ Uploader.run_workers 0
             (repeat Ex.record2 2 ++ Ex.record1 :: repeat Ex.record2 5)
             Ex.envs_reset Ex.w0
           = (w', Return (rs1 ++ Return Uploader.Succeeded :: rs2))
        /\ forall j r, nth_error rs2 j = Some r ->
             (is_meltdown r = true <-> S j = 5%nat)).
Proof.
  split.
  - destruct (breaker_trips_on_threshold 5 Ex.w0 Ex.envs_503
                ltac:(lia) eq_refl eq_refl (ex_has_client 0)) as [P _].
    apply (P (repeat Ex.record2 5) eq_refl).
    intros j _. exact ex_transient_503.
  - destruct (breaker_trips_on_threshold 5 Ex.w0 Ex.envs_reset
                ltac:(lia) eq_refl eq_refl (ex_has_client 0)) as [_ P].
    destruct (P 2%nat (repeat Ex.record2 2) Ex.record1 (repeat Ex.record2 5)
                ltac:(lia) eq_refl eq_refl eq_refl)
      as [w1 [rs1 [w' [rs2 [R1 [_ [_ [Z0 [R2 [_ F]]]]]]]]]].
    + intros j Hj. unfold Ex.envs_reset.
      destruct (Nat.eqb_spec j 2); [lia|exact ex_transient_503].
    + exact ex_success_ok.
    + intros j Hj. unfold Ex.envs_reset.
      destruct (Nat.eqb_spec j 2); [lia|exact ex_transient_503].
    + exists w1, rs1, w', rs2. repeat split; auto; apply F; auto.
Defined.

Lemma skipped_existing_keeps_counter_witness :
  (exists w',
     Uploader.upload_image Ex.record2 Ex.env_found Ex.w3
     = (w', Return Uploader.SkippedExisting)
     /\ consecutive_meltdown_errors (self w') = 3)
  /\ (exists w',
        Uploader.upload_image Ex.record2 Ex.env_503 Ex.w3
        = (w', Return Uploader.SoftFailed)
        /\ (consecutive_meltdown_errors (self w') = 3
            \/ consecutive_meltdown_errors (self w') = 3 + 1))
  /\ (exists w' rs,
        Uploader.run_workers 0 (repeat Ex.record2 3) Ex.envs_mixed Ex.w0
        = (w', Return rs)
        /\ consecutive_meltdown_errors (self w') = 2
        /\ nth_error rs 1 = Some (Return Uploader.SkippedExisting)).
Proof.
  destruct skipped_existing_keeps_counter as [P1 [P2 P3]].
  split; [|split].
  - destruct (Uploader.upload_image Ex.record2 Ex.env_found Ex.w3)
      as [w' r] eqn:E.
    assert (R : r = Return Uploader.SkippedExisting).
    { vm_compute in E. inversion E. reflexivity. }
    subst r. exists w'. split; [reflexivity|].
    exact (P1 _ _ _ _ E).
  - destruct (Uploader.upload_image Ex.record2 Ex.env_503 Ex.w3)
      as [w' r] eqn:E.
    assert (R : r = Return Uploader.SoftFailed).
    { vm_compute in E. inversion E. reflexivity. }
    subst r. exists w'. split; [reflexivity|].
    apply (P2 _ _ _ _ _ E). discriminate.
  - destruct (P3 (repeat Ex.record2 3) Ex.envs_mixed Ex.w0
                (ex_has_client 0) eq_refl) as [w' [rs [R [C S]]]].
    + intros j Hj. unfold Ex.envs_mixed.
      destruct (Nat.eqb_spec j 1);
        [right; split; [reflexivity|exact ex_found]
        |left; exact ex_transient_503].
    + exists w', rs. split; [exact R|]. split; [exact C|].
      apply S; [simpl; lia|].
      split; [reflexivity|exact ex_found].
Defined.

Lemma scheduler_stops_only_on_meltdown_witness :
  (exists w',
     Uploader.run_multithreaded [Ex.iter_fault; Ex.iter_503; Ex.iter_503]
       Ex.w4
     = Some (w', Return tt)
     /\ connection_pool (db (self w')) = Some PoolClosed)
  /\ (exists w',
        Uploader.run_multithreaded [Ex.iter_fault; Ex.iter_503] Ex.w4
        = Some (w', Return tt)
        /\ trace w' = trace Ex.w4_melted ++ [DbCloseAll; Log INFO])
  /\ Uploader.run_multithreaded [Ex.iter_fault; Ex.iter_503] Ex.w4
     = Uploader.run_multithreaded [Ex.iter_503] Ex.w4_logged
  /\ Uploader.run_multithreaded [Ex.iter_fault] Ex.w4
     = Uploader.run_multithreaded []
         (log Ex.w4 [DbFetch 50; Log EXCEPTION; Log EXCEPTION]).
Proof.
  destruct scheduler_stops_only_on_meltdown as [P1 [P2 [P3 P4]]].
  split; [|split; [|split]].
  - destruct (Uploader.run_multithreaded
                [Ex.iter_fault; Ex.iter_503; Ex.iter_503] Ex.w4)
      as [[w' r]|] eqn:H; [|vm_compute in H; discriminate H].
    destruct (P1 _ _ _ _ H)
      as [pre [e [post [w0 [w1 [_ [_ [_ [R [P _]]]]]]]]]].
    subst r. exists w'. split; [reflexivity|exact P].
  - destruct (P2 [Ex.iter_fault] Ex.iter_503 [] Ex.w4 Ex.w4_logged
                Ex.w4_melted) as [w' [R [_ T]]].
    + econstructor; [|constructor]. vm_compute. reflexivity.
    + apply iteration_break_iff. vm_compute. reflexivity.
    + exists w'. split; [exact R|exact T].
  - apply (P3 Ex.iter_fault [Ex.iter_503] Ex.w4
             (log Ex.w4 [DbFetch 50; Log EXCEPTION])
             (Exception "server closed the connection")).
    vm_compute. reflexivity.
  - apply (P4 Ex.iter_fault [] Ex.w4 "server closed the connection");
      reflexivity.
Defined.

(** * Further properties of the code *)

(** ** The database accessor *)

Lemma fetch_rows (limit : Z) (fault : option string) (w w0 : world)
    (rows : list image_record) :
  Db.fetch_pending_uploads limit fault w = (w0, Return rows) ->
  0 <= limit
  /\ rows = map Db.to_record
              (firstn (Z.to_nat limit)
                 (filter Db.eligible (upload_to_s3 (db (self w))))).
Proof.
  unfold Db.fetch_pending_uploads, Db.execute_query, Db.get_connection,
    Db.query_fetch.
  unfold_m. simpl.
  destruct (connection_pool (db (self w))) as [[|]|]; simpl;
    try discriminate.
  destruct fault; simpl; try discriminate.
  destruct (limit <? 0) eqn:E; simpl; try discriminate.
  intro H; inversion H; subst. split; [apply Z.ltb_ge; exact E|reflexivity].
Qed.

Lemma fetched_from_eligible (limit : Z) (fault : option string)
    (w w0 : world) (rows : list image_record) (t : image_record) :
  Db.fetch_pending_uploads limit fault w = (w0, Return rows) ->
  In t rows ->
  exists r, In r (upload_to_s3 (db (self w)))
            /\ Db.to_record r = t /\ retry_count r < 5.
Proof.
  intros F Ht. destruct (fetch_rows _ _ _ _ _ F) as [_ E]. subst rows.
  apply in_map_iff in Ht. destruct Ht as [r [Hr Hin]].
  apply In_firstn in Hin. apply filter_In in Hin. destruct Hin as [Hin He].
  exists r. repeat split; auto. apply Z.ltb_lt. exact He.
Qed.

Lemma fetch_keeps_self (limit : Z) (fault : option string) (w w' : world)
    (r : result (list image_record)) :
  Db.fetch_pending_uploads limit fault w = (w', r) -> self w' = self w.
Proof.
  unfold_db; unfold_m; simpl.
  destruct (connection_pool (db (self w))) as [[|]|]; simpl;
    destruct fault; simpl;
    try destruct (limit <? 0); simpl;
    intro H; inversion H; subst; simpl;
    try reflexivity; try apply with_db_same.
Qed.

(** X1: a statement that raises has no effect: whenever one of the four
    statement methods raises, for whatever reason (pool missing or closed,
    a fault, a rejected LIMIT), the uploader and with it both tables are
    exactly as before the call; and a fetch never changes them. *)
Theorem failed_statement_has_no_effect :
  (forall limit fault w w' r,
     Db.fetch_pending_uploads limit fault w = (w', r) -> self w' = self w)
  /\ (forall upload_id fault w w' e,
        Db.delete_uploaded_record upload_id fault w = (w', Raise e) ->
        self w' = self w)
  /\ (forall upload_id msg fault w w' e,
        Db.mark_as_failed upload_id msg fault w = (w', Raise e) ->
        self w' = self w)
  /\ (forall i a p k b fault w w' e,
        Db.insert_into_uploaded_s3 i a p k b fault w = (w', Raise e) ->
        self w' = self w).
Proof.
  split; [|split; [|split]]; intros *; unfold_db; unfold_m; simpl;
    destruct (connection_pool (db (self w))) as [[|]|]; simpl;
    destruct fault; simpl;
    try destruct (limit <? 0); simpl;
    intro H; inversion H; subst; simpl;
    try reflexivity; try apply with_db_same.
Qed.

(** X2: once [close_all_connections] has closed the open pool, the tables
    are as before but the accessor is dead: each statement method raises
    psycopg2's closed-pool error, and so does a second
    [close_all_connections]. *)
Theorem closed_pool_refuses (w : world) :
  store_ready w ->
  exists w1,
    Db.close_all_connections w = (w1, Return tt)
    /\ upload_to_s3 (db (self w1)) = upload_to_s3 (db (self w))
    /\ uploaded_s3 (db (self w1)) = uploaded_s3 (db (self w))
    /\ (forall limit fault,
          snd (Db.fetch_pending_uploads limit fault w1)
          = Raise pool_closed_error)
    /\ (forall upload_id fault,
          snd (Db.delete_uploaded_record upload_id fault w1)
          = Raise pool_closed_error)
    /\ (forall upload_id msg fault,
          snd (Db.mark_as_failed upload_id msg fault w1)
          = Raise pool_closed_error)
    /\ (forall i a p k b fault,
          snd (Db.insert_into_uploaded_s3 i a p k b fault w1)
          = Raise pool_closed_error)
    /\ snd (Db.close_all_connections w1) = Raise pool_closed_error.
Proof.
  unfold store_ready. intro Hp.
  unfold_db. unfold_m. simpl. rewrite Hp. simpl.
  eexists. split; [reflexivity|]. simpl.
  repeat split; reflexivity.
Qed.

(** X3: before any pool was initialised each statement method raises
    "Connection pool is not initialized." without logging, while
    [close_all_connections] returns and changes nothing. *)
Theorem uninitialised_pool_refuses (w : world) :
  connection_pool (db (self w)) = None ->
  let e := Exception "Connection pool is not initialized." in
  (forall limit fault,
     Db.fetch_pending_uploads limit fault w
     = (log w [DbFetch limit], Raise e))
  /\ (forall upload_id fault,
        Db.delete_uploaded_record upload_id fault w
        = (log w [DbDelete upload_id], Raise e))
  /\ (forall upload_id msg fault,
        Db.mark_as_failed upload_id msg fault w
        = (log w [DbMarkFailed upload_id msg], Raise e))
  /\ Db.close_all_connections w = (log w [DbCloseAll], Return tt).
Proof.
  intros Hp e. unfold_db. unfold_m. unfold log. simpl. rewrite Hp. simpl.
  repeat split; reflexivity.
Qed.

Lemma filter_filter_same {A} (f : A -> bool) (l : list A) :
  filter f (filter f l) = filter f l.
Proof.
  induction l as [|a l IH]; simpl; [reflexivity|].
  destruct (f a) eqn:E; simpl; [rewrite E, IH|]; auto.
Qed.

(** X4: once [delete_uploaded_record] has executed for an id, no fetch
    returns a record with that id, the ledger is untouched, and deleting
    the same id again executes and leaves the queue as the first delete
    left it. *)
Theorem deleted_task_never_fetched (upload_id : Z) (w : world) :
  store_ready w ->
  exists w1,
    Db.delete_uploaded_record upload_id None w = (w1, Return tt)
    /\ uploaded_s3 (db (self w1)) = uploaded_s3 (db (self w))
    /\ (forall limit fault w2 rows t,
          Db.fetch_pending_uploads limit fault w1 = (w2, Return rows) ->
          In t rows -> rec_id t <> upload_id)
    /\ exists w2,
         Db.delete_uploaded_record upload_id None w1 = (w2, Return tt)
         /\ db (self w2) = db (self w1).
Proof.
  unfold store_ready. intro Hp.
  destruct (Db.delete_uploaded_record upload_id None w) as [w1 r] eqn:D.
  revert D. unfold Db.delete_uploaded_record, Db.execute_query,
    Db.get_connection, Db.query_delete. unfold_m. simpl. rewrite Hp. simpl.
  intro D. inversion D; subst w1 r; clear D.
  eexists. split; [reflexivity|]. simpl. split; [reflexivity|]. split.
  - intros limit fault w2 rows t F Ht.
    destruct (fetched_from_eligible _ _ _ _ _ _ F Ht) as [r [Hin [Hr _]]].
    simpl in Hin. apply in_query_delete in Hin. destruct Hin as [_ Hid].
    subst t. exact Hid.
  - rewrite Hp. simpl. eexists. split; [reflexivity|]. simpl.
    rewrite filter_filter_same. reflexivity.
Qed.

(** X5: a task whose rows all stand at retry_count 4 or more is fetched no
    more once [mark_as_failed] has executed for it: the fifth failure
    retires the task, though its row stays in the queue. *)
Theorem fifth_failure_retires (upload_id : Z) (msg : string) (w : world) :
  store_ready w ->
  (forall r, In r (upload_to_s3 (db (self w))) -> id r = upload_id ->
             4 <= retry_count r) ->
  exists w1,
    Db.mark_as_failed upload_id msg None w = (w1, Return tt)
    /\ List.length (upload_to_s3 (db (self w1)))
       = List.length (upload_to_s3 (db (self w)))
    /\ forall limit fault w2 rows t,
         Db.fetch_pending_uploads limit fault w1 = (w2, Return rows) ->
         In t rows -> rec_id t <> upload_id.
Proof.
  unfold store_ready. intros Hp Hr.
  destruct (Db.mark_as_failed upload_id msg None w) as [w1 r] eqn:D.
  revert D. unfold Db.mark_as_failed, Db.execute_query,
    Db.get_connection, Db.query_update. unfold_m. simpl. rewrite Hp. simpl.
  intro D. inversion D; subst w1 r; clear D.
  eexists. split; [reflexivity|]. simpl. split; [apply length_map|].
  intros limit fault w2 rows t F Ht.
  destruct (fetched_from_eligible _ _ _ _ _ _ F Ht) as [r [Hin [Hrec Hlt]]].
  simpl in Hin. apply in_map_iff in Hin. destruct Hin as [r0 [E0 Hin0]].
  subst t. intro Hid. simpl in Hid.
  destruct (id r0 =? upload_id) eqn:E.
  - subst r. simpl in *. apply Z.eqb_eq in E.
    pose proof (Hr r0 Hin0 E). lia.
  - subst r. apply Z.eqb_neq in E. contradiction.
Qed.

Lemma map_update_absent (upload_id : Z) (msg : string)
    (rows : list upload_row) :
  (forall r, In r rows -> id r <> upload_id) ->
  map (fun r => if id r =? upload_id then Db.fail_row msg r else r) rows
  = rows.
Proof.
  induction rows as [|r rows IH]; intro H; simpl; [reflexivity|].
  rewrite IH by (intros r' Hr'; apply H; right; exact Hr').
  destruct (id r =? upload_id) eqn:E; [|reflexivity].
  apply Z.eqb_eq in E. exfalso. apply (H r); [left; reflexivity|exact E].
Qed.

Lemma filter_delete_absent (upload_id : Z) (rows : list upload_row) :
  (forall r, In r rows -> id r <> upload_id) ->
  filter (fun r => negb (id r =? upload_id)) rows = rows.
Proof.
  induction rows as [|r rows IH]; intro H; simpl; [reflexivity|].
  rewrite IH by (intros r' Hr'; apply H; right; exact Hr').
  destruct (id r =? upload_id) eqn:E; [|reflexivity].
  apply Z.eqb_eq in E. exfalso. apply (H r); [left; reflexivity|exact E].
Qed.

(** X6: for an id no queue row carries, [mark_as_failed] and
    [delete_uploaded_record] execute, report nothing and leave the
    database exactly as it was. *)
Theorem absent_id_is_silent (upload_id : Z) (msg : string) (w : world) :
  store_ready w ->
  (forall r, In r (upload_to_s3 (db (self w))) -> id r <> upload_id) ->
  (exists w1, Db.mark_as_failed upload_id msg None w = (w1, Return tt)
              /\ db (self w1) = db (self w))
  /\ (exists w1, Db.delete_uploaded_record upload_id None w = (w1, Return tt)
                 /\ db (self w1) = db (self w)).
Proof.
  unfold store_ready. intros Hp Ha.
  destruct w as [[[p q l] c mw th n sl] tr]. simpl in *. subst p.
  unfold_db. unfold_m. simpl.
  split; eexists; (split; [reflexivity|]); simpl.
  - rewrite (map_update_absent _ _ _ Ha). reflexivity.
  - rewrite (filter_delete_absent _ _ Ha). reflexivity.
Qed.

Lemma first_with_path_some (path : string) (l : list image_record)
    (t : image_record) :
  Db.first_with_path path l = Some t -> In t l /\ local_path t = path.
Proof.
  induction l as [|a l IH]; simpl; [discriminate|].
  destruct (String.eqb_spec (local_path a) path) as [E|E].
  - intro H; inversion H; subst. auto.
  - intro H. destruct (IH H). auto.
Qed.

Lemma first_with_path_none (path : string) (l : list image_record) :
  Db.first_with_path path l = None ->
  forall t, In t l -> local_path t <> path.
Proof.
  induction l as [|a l IH]; simpl; [intros _ t []|].
  destruct (String.eqb_spec (local_path a) path) as [E|E]; [discriminate|].
  intros H t [Ht|Ht]; [subst; exact E|apply IH; assumption].
Qed.

(** X7: [fetch_pending_uploads_single_image] never changes the database;
    a record it returns has the path asked for and comes from a queue row
    with retry_count below 5; and when it returns [None], no record of the
    batch of at most 50 that the fetch yields has that path (rows outside
    that batch are not looked at). *)
Theorem single_image_lookup (path : string) (fault : option string)
    (w w' : world) (o : option image_record) :
  Db.fetch_pending_uploads_single_image path fault w = (w', Return o) ->
  self w' = self w
  /\ match o with
     | Some t =>
         local_path t = path
         /\ exists r, In r (upload_to_s3 (db (self w)))
                      /\ Db.to_record r = t /\ retry_count r < 5
     | None =>
         forall t,
           In t (map Db.to_record
                   (firstn 50 (filter Db.eligible
                                 (upload_to_s3 (db (self w)))))) ->
           local_path t <> path
     end.
Proof.
  unfold Db.fetch_pending_uploads_single_image. unfold bind at 1.
  destruct (Db.fetch_pending_uploads 50 fault w) as [w0 [rows|e]] eqn:F;
    [|discriminate].
  pose proof (fetch_keeps_self _ _ _ _ _ F) as Hs.
  destruct (fetch_rows _ _ _ _ _ F) as [_ Hrows].
  change (Z.to_nat 50) with 50%nat in Hrows.
  destruct rows as [|a rows].
  - unfold_m. intro H; inversion H; subst. split; [exact Hs|].
    rewrite <- Hrows. intros t [].
  - unfold ret. intro H.
    assert (Hw : w0 = w') by congruence.
    assert (E : Db.first_with_path path (a :: rows) = o) by congruence.
    subst w'. clear H. split; [exact Hs|].
    destruct o as [t|].
    + destruct (first_with_path_some _ _ _ E) as [Hin Hp].
      split; [exact Hp|]. eapply fetched_from_eligible; eassumption.
    + rewrite <- Hrows. apply first_with_path_none. exact E.
Qed.

(** ** The failure paths of one task *)

Ltac absurd_code :=
  match goal with
  | E : String.eqb ?c _ = true, H : ?c <> _ |- _ =>
      apply String.eqb_eq in E; contradiction
  | E : String.eqb ?c _ = true, H : ~ transient ?c |- _ =>
      apply String.eqb_eq in E; exfalso; apply H; unfold transient; auto
  end.

(** X8: when the probe fails with an error that is neither not-found nor
    transient (any other error code, or an exception that is not a
    ClientError), the worker returns soft-failed: the task is marked
    failed with the text of the exception, nothing is transferred or
    written to the ledger, and the meltdown counter is as before. *)
Theorem permanent_probe_error_marks_failed (record : image_record)
    (env : Uploader.task_env) (w : world) (e : io_error) :
  Uploader.isfile env = true ->
  has_client w -> client_ok env -> store_ready w ->
  Uploader.head_object env = Failed e -> permanent_at_probe e ->
  Uploader.mark_fault env = None ->
  exists w',
    Uploader.upload_image record env w = (w', Return Uploader.SoftFailed)
    /\ trace w' =
       trace w ++ [IsFile (local_path record)] ++ refresh_events env w
       ++ [HeadObject "mikro" (Uploader.s3_path_of (local_path record));
           Log EXCEPTION;
           DbMarkFailed (rec_id record) (str (to_exn e)); Log INFO]
    /\ upload_to_s3 (db (self w'))
       = marked (rec_id record) (str (to_exn e)) (upload_to_s3 (db (self w)))
    /\ uploaded_s3 (db (self w')) = uploaded_s3 (db (self w))
    /\ consecutive_meltdown_errors (self w')
       = consecutive_meltdown_errors (self w).
Proof.
  intros Hf Hc Hk Hs Hh Hp Hm.
  destruct (Uploader.upload_image record env w) as [w' r] eqn:H.
  open_scenario env w. unfold marked.
  destruct Hc as [h0 Hc]. destruct Hk as [h Hk]. subst.
  destruct e as [code m|m]; simpl in Hp.
  - destruct Hp as [H404 Ht].
    upload_cases H; try absurd_code.
    all: eexists; split; [reflexivity|]; simpl; flatten_trace.
    all: repeat split; reflexivity.
  - upload_cases H.
    all: eexists; split; [reflexivity|]; simpl; flatten_trace.
    all: repeat split; reflexivity.
Qed.

(** X9: when a refresh of the client is due and boto3 fails to create one,
    the worker returns soft-failed without probing: the task is marked
    failed with the text of the exception, the wrapper keeps its handle
    and expiry, and the meltdown counter is as before whatever the
    error. *)
Theorem client_failure_marks_failed (record : image_record)
    (env : Uploader.task_env) (w : world) (e : io_error) :
  Uploader.isfile env = true ->
  refresh_due false (s3_client_wrapper (self w))
    (Wrapper.now (Uploader.cred env)) ->
  Wrapper.session_client (Uploader.cred env) = Failed e ->
  store_ready w ->
  Uploader.mark_fault env = None ->
  exists w',
    Uploader.upload_image record env w = (w', Return Uploader.SoftFailed)
    /\ trace w' =
       trace w ++ [IsFile (local_path record);
                   CreateClient (endpoint_url (s3_client_wrapper (self w)));
                   Log EXCEPTION;
                   DbMarkFailed (rec_id record) (str (to_exn e)); Log INFO]
    /\ upload_to_s3 (db (self w'))
       = marked (rec_id record) (str (to_exn e)) (upload_to_s3 (db (self w)))
    /\ uploaded_s3 (db (self w')) = uploaded_s3 (db (self w))
    /\ s3_client_wrapper (self w') = s3_client_wrapper (self w)
    /\ consecutive_meltdown_errors (self w')
       = consecutive_meltdown_errors (self w).
Proof.
  intros Hf Hd He Hs Hm.
  apply needs_refresh_due in Hd.
  destruct (Uploader.upload_image record env w) as [w' r] eqn:H.
  open_scenario env w. unfold marked. subst.
  revert H. unfold_upload; unfold_db; unfold_m; simpl. rewrite Hd. simpl.
  destruct e as [code m|m]; simpl; intro H; inversion H; subst; clear H.
  all: eexists; split; [reflexivity|]; simpl; flatten_trace.
  all: repeat split; reflexivity.
Qed.

(** X10: when the probe answers not-found and the transfer fails with an
    error that is not transient (the file cannot be opened, or
    [put_object] fails), the worker returns soft-failed: the task is
    marked failed with the text of the exception, no ledger row is
    written, and the meltdown counter is as before. *)
Theorem permanent_transfer_error_marks_failed (record : image_record)
    (env : Uploader.task_env) (w : world) (e : io_error) :
  Uploader.isfile env = true ->
  has_client w -> client_ok env -> store_ready w ->
  probe_not_found env ->
  (Uploader.open_file env = Failed e
   \/ (Uploader.open_file env = Done tt
       /\ Uploader.put_object env = Failed e)) ->
  permanent_at_transfer e ->
  Uploader.mark_fault env = None ->
  exists w' evs,
    Uploader.upload_image record env w = (w', Return Uploader.SoftFailed)
    /\ trace w' = trace w ++ evs
    /\ In (DbMarkFailed (rec_id record) (str (to_exn e))) evs
    /\ Forall (fun ev => ~ is_ledger_write ev) evs
    /\ upload_to_s3 (db (self w'))
       = marked (rec_id record) (str (to_exn e)) (upload_to_s3 (db (self w)))
    /\ uploaded_s3 (db (self w')) = uploaded_s3 (db (self w))
    /\ consecutive_meltdown_errors (self w')
       = consecutive_meltdown_errors (self w).
Proof.
  intros Hf Hc Hk Hs Hn Ht Hp Hm.
  destruct (Uploader.upload_image record env w) as [w' r] eqn:H.
  open_scenario env w. unfold marked.
  destruct Hc as [h0 Hc]. destruct Hk as [h Hk]. destruct Hn as [m0 Hn].
  destruct Ht as [Ho|[Ho Hput]]; subst;
    destruct e as [code m|m]; simpl in Hp.
  all: upload_cases H; try absurd_code.
  all: eexists; eexists; split; [reflexivity|]; simpl; flatten_trace.
  all: split; [reflexivity|].
  all: split; [simpl; tauto|].
  all: split; [repeat constructor; simpl; auto|].
  all: repeat split; reflexivity.
Qed.

(** X11: when the transfer completes but the INSERT into the ledger meets
    a fault, the worker returns soft-failed: the object has been put, the
    ledger has no row for it, the task is marked failed with the text of
    the fault and the meltdown counter is not set back; and when the task
    is then found already uploaded on a later run it is deleted with the
    ledger still as it was at the start. *)
Theorem ledger_fault_loses_the_record (record : image_record)
    (env env2 : Uploader.task_env) (w : world) (m : string) :
  Uploader.isfile env = true ->
  has_client w -> client_ok env -> store_ready w ->
  probe_not_found env ->
  Uploader.open_file env = Done tt ->
  Uploader.put_object env = Done tt ->
  Uploader.insert_fault env = Some m ->
  Uploader.mark_fault env = None ->
  skipped_env env2 ->
  exists w1 evs w2,
    Uploader.upload_image record env w = (w1, Return Uploader.SoftFailed)
    /\ trace w1 = trace w ++ evs
    /\ In (PutObject "mikro" (Uploader.s3_path_of (local_path record))) evs
    /\ upload_to_s3 (db (self w1))
       = marked (rec_id record) m (upload_to_s3 (db (self w)))
    /\ uploaded_s3 (db (self w1)) = uploaded_s3 (db (self w))
    /\ consecutive_meltdown_errors (self w1)
       = consecutive_meltdown_errors (self w)
    /\ Uploader.upload_image record env2 w1
       = (w2, Return Uploader.SkippedExisting)
    /\ upload_to_s3 (db (self w2))
       = without (rec_id record) (upload_to_s3 (db (self w1)))
    /\ uploaded_s3 (db (self w2)) = uploaded_s3 (db (self w)).
Proof.
  intros Hf Hc Hk Hs Hn Ho Hput Hi Hm [Hf2 Hfound].
  destruct (Uploader.upload_image record env w) as [w1 r] eqn:H.
  destruct (upload_image_cases _ _ _ _ _ H) as [Hp1 [_ [_ [_ [Hc1 _]]]]].
  assert (Hs1 : store_ready w1) by (unfold store_ready in *; congruence).
  destruct (found_step record env2 w1 Hf2 (Hc1 Hc) Hs1 Hfound)
    as [w2 [E2 [_ [L2 [Q2 _]]]]].
  clear Hp1 Hc1 Hs1.
  assert (exists evs,
    r = Return Uploader.SoftFailed
    /\ trace w1 = trace w ++ evs
    /\ In (PutObject "mikro" (Uploader.s3_path_of (local_path record))) evs
    /\ upload_to_s3 (db (self w1))
       = marked (rec_id record) m (upload_to_s3 (db (self w)))
    /\ uploaded_s3 (db (self w1)) = uploaded_s3 (db (self w))
    /\ consecutive_meltdown_errors (self w1)
       = consecutive_meltdown_errors (self w)) as [evs [Hr [T [P [Q [L C]]]]]].
  { clear E2 L2 Q2 Hfound Hf2.
    open_scenario env w. unfold marked.
    destruct Hc as [h0 Hc]. destruct Hk as [h Hk]. destruct Hn as [m0 Hn].
    subst. upload_cases H.
    all: eexists; split; [reflexivity|]; simpl; flatten_trace.
    all: split; [reflexivity|].
    all: split; [simpl; tauto|].
    all: repeat split; reflexivity. }
  subst r. exists w1, evs, w2.
  repeat split; auto. congruence.
Qed.

(** X12: when the ledger row has been inserted but the DELETE of the task
    meets a fault, the worker returns soft-failed with the ledger and the
    queue at odds: the ledger holds the row of the completed upload while
    the task stays queued, marked failed with the text of the fault, and
    the meltdown counter is not set back. *)
Theorem delete_fault_leaves_task_queued (record : image_record)
    (env : Uploader.task_env) (w : world) (m : string) :
  Uploader.isfile env = true ->
  has_client w -> client_ok env -> store_ready w ->
  probe_not_found env ->
  Uploader.open_file env = Done tt ->
  Uploader.put_object env = Done tt ->
  Uploader.insert_fault env = None ->
  Uploader.delete_fault env = Some m ->
  Uploader.mark_fault env = None ->
  exists w',
    Uploader.upload_image record env w = (w', Return Uploader.SoftFailed)
    /\ uploaded_s3 (db (self w'))
       = uploaded_s3 (db (self w)) ++ [ledger_row record]
    /\ upload_to_s3 (db (self w'))
       = marked (rec_id record) m (upload_to_s3 (db (self w)))
    /\ consecutive_meltdown_errors (self w')
       = consecutive_meltdown_errors (self w).
Proof.
  intros Hf Hc Hk Hs Hn Ho Hput Hi Hd Hm.
  destruct (Uploader.upload_image record env w) as [w' r] eqn:H.
  open_scenario env w. unfold marked, ledger_row.
  destruct Hc as [h0 Hc]. destruct Hk as [h Hk]. destruct Hn as [m0 Hn].
  subst. upload_cases H.
  all: eexists; split; [reflexivity|]; simpl.
  all: repeat split; reflexivity.
Qed.

(** X13: a transient error that leaves the count below the threshold is
    handled like any failure: the worker returns soft-failed and the task
    is marked failed, its retry_count one higher, while the counter goes
    up by one. *)
Theorem transient_below_threshold_burns_a_retry (record : image_record)
    (env : Uploader.task_env) (w : world) :
  has_client w -> transient_env env -> store_ready w ->
  Uploader.mark_fault env = None ->
  consecutive_meltdown_errors (self w) + 1 < meltdown_threshold (self w) ->
  exists w' msg,
    Uploader.upload_image record env w = (w', Return Uploader.SoftFailed)
    /\ upload_to_s3 (db (self w'))
       = marked (rec_id record) msg (upload_to_s3 (db (self w)))
    /\ uploaded_s3 (db (self w')) = uploaded_s3 (db (self w))
    /\ consecutive_meltdown_errors (self w')
       = consecutive_meltdown_errors (self w) + 1.
Proof.
  intros Hc Ht Hs Hm Hlt.
  destruct (Uploader.upload_image record env w) as [w' r] eqn:H.
  open_scenario env w. unfold marked.
  destruct Hc as [h0 Hc]. destruct Ht as [Hf [[h Hk] Ht]]. subst.
  destruct Ht as [[code [m [Hcode Hh]]]
                 |[[m0 Hh] [Ho [code [m [Hcode Hp]]]]]]; subst;
    destruct Hcode as [Hcode|[Hcode|Hcode]]; subst.
  all: upload_cases H.
  all: try (match goal with G : (_ >=? _) = true |- _ =>
              apply Z.geb_le in G; lia end).
  all: eexists; eexists; split; [reflexivity|]; simpl.
  all: repeat split; reflexivity.
Qed.

(** ** What a worker can and cannot change *)

(** Every execution leaves the queue as it was, or without the task's
    rows, or with the task's rows marked failed. *)
Lemma upload_image_queue (record : image_record) (env : Uploader.task_env)
    (w w' : world) (r : result Uploader.outcome) :
  Uploader.upload_image record env w = (w', r) ->
  upload_to_s3 (db (self w')) = upload_to_s3 (db (self w))
  \/ upload_to_s3 (db (self w'))
     = without (rec_id record) (upload_to_s3 (db (self w)))
  \/ exists msg, upload_to_s3 (db (self w'))
                 = marked (rec_id record) msg (upload_to_s3 (db (self w))).
Proof.
  intro H.
  destruct env as [isf [nw sc ce] ho op po fi fd fm].
  destruct w as [[[p q l] [eu rg cl ex] mw th n sl] tr].
  unfold without, marked.
  upload_cases H.
  all: first [ left; reflexivity
             | right; left; reflexivity
             | right; right; eexists; reflexivity ].
Qed.

(** Every execution leaves the ledger as it was or adds the task's row at
    its end, and it adds the row only when the file was there, the probe
    answered not-found, and the transfer and the INSERT completed. *)
Lemma upload_image_ledger (record : image_record) (env : Uploader.task_env)
    (w w' : world) (r : result Uploader.outcome) :
  Uploader.upload_image record env w = (w', r) ->
  uploaded_s3 (db (self w')) = uploaded_s3 (db (self w))
  \/ (uploaded_s3 (db (self w'))
      = uploaded_s3 (db (self w)) ++ [ledger_row record]
      /\ Uploader.isfile env = true
      /\ probe_not_found env
      /\ Uploader.open_file env = Done tt
      /\ Uploader.put_object env = Done tt
      /\ Uploader.insert_fault env = None).
Proof.
  intro H.
  destruct env as [isf [nw sc ce] ho op po fi fd fm].
  destruct w as [[[p q l] [eu rg cl ex] mw th n sl] tr].
  unfold ledger_row, probe_not_found.
  upload_cases H.
  all: first [ left; reflexivity
             | right; simpl;
               repeat match goal with u : unit |- _ => destruct u end;
               repeat match goal with
                      | E : String.eqb _ _ = true |- _ =>
                          apply String.eqb_eq in E; subst
                      end;
               repeat split; eauto ].
  all: match goal with
       | E : negb ?b = false |- ?b = true =>
           destruct b; [reflexivity|discriminate E]
       end.
Qed.

Lemma without_marked (upload_id : Z) (msg : string) (rows : list upload_row) :
  without upload_id (marked upload_id msg rows) = without upload_id rows.
Proof.
  unfold without, marked.
  induction rows as [|r rows IH]; simpl; [reflexivity|].
  destruct (id r =? upload_id) eqn:E; simpl; rewrite E; simpl;
    rewrite IH; reflexivity.
Qed.

Lemma descends_refl (r : upload_row) : descends r r.
Proof. unfold descends. repeat split; lia. Qed.

Lemma in_marked_descends (upload_id : Z) (msg : string)
    (rows : list upload_row) (r' : upload_row) :
  In r' (marked upload_id msg rows) ->
  exists r0, In r0 rows /\ descends r' r0
             /\ retry_count r' <= retry_count r0 + 1.
Proof.
  unfold marked. intro H. apply in_map_iff in H.
  destruct H as [r0 [E Hin]]. exists r0. split; [exact Hin|].
  destruct (id r0 =? upload_id); subst r'; unfold descends; simpl;
    repeat split; lia.
Qed.

(** X14: a worker touches the rows of its own task only: after any
    execution of [upload_image], whatever its result, the queue rows of
    every other id are exactly as before, and every row now in the queue
    is a row that was there, with the same id, image, acquisition and
    path, and a retry_count equal or one higher. *)
Theorem worker_touches_only_its_task (record : image_record)
    (env : Uploader.task_env) (w w' : world) (r : result Uploader.outcome) :
  Uploader.upload_image record env w = (w', r) ->
  without (rec_id record) (upload_to_s3 (db (self w')))
  = without (rec_id record) (upload_to_s3 (db (self w)))
  /\ forall r', In r' (upload_to_s3 (db (self w'))) ->
       exists r0, In r0 (upload_to_s3 (db (self w)))
                  /\ descends r' r0
                  /\ retry_count r' <= retry_count r0 + 1.
Proof.
  intro H.
  destruct (upload_image_queue _ _ _ _ _ H) as [Q|[Q|[msg Q]]]; rewrite Q.
  - split; [reflexivity|]. intros r' Hin. exists r'.
    split; [exact Hin|]. split; [apply descends_refl|lia].
  - split; [apply filter_filter_same|]. intros r' Hin.
    apply in_query_delete in Hin. destruct Hin as [Hin _].
    exists r'. split; [exact Hin|]. split; [apply descends_refl|lia].
  - split; [apply without_marked|]. apply in_marked_descends.
Qed.

(** X15: the ledger is append-only for a worker, and a row goes in only
    for a completed transfer: after any execution of [upload_image] the
    ledger is the old ledger, or the old ledger followed by the one row
    of this task; and in the latter case the local file was there, the
    probe answered not-found, the file was opened and put, and the INSERT
    met no fault. *)
Theorem ledger_row_only_after_transfer (record : image_record)
    (env : Uploader.task_env) (w w' : world) (r : result Uploader.outcome) :
  Uploader.upload_image record env w = (w', r) ->
  (uploaded_s3 (db (self w')) = uploaded_s3 (db (self w))
   \/ uploaded_s3 (db (self w'))
      = uploaded_s3 (db (self w)) ++ [ledger_row record])
  /\ (uploaded_s3 (db (self w')) <> uploaded_s3 (db (self w)) ->
      Uploader.isfile env = true
      /\ probe_not_found env
      /\ Uploader.open_file env = Done tt
      /\ Uploader.put_object env = Done tt
      /\ Uploader.insert_fault env = None).
Proof.
  intro H.
  destruct (upload_image_ledger _ _ _ _ _ H) as [L|[L C]].
  - split; [left; exact L|]. intro N. contradiction.
  - split; [right; exact L|]. intros _. exact C.
Qed.

(** ** What the loop can and cannot change *)

Lemma progress_refl (s : S3ImageUploader) : progress s s.
Proof.
  unfold progress. split; [exists []; symmetry; apply app_nil_r|].
  split; [|repeat split; auto].
  intros r' H. exists r'. split; [exact H|apply descends_refl].
Qed.

Lemma progress_trans (s1 s2 s3 : S3ImageUploader) :
  progress s1 s2 -> progress s2 s3 -> progress s1 s3.
Proof.
  unfold progress.
  intros [[a1 L1] [Q1 [T1 [M1 [S1 C1]]]]] [[a2 L2] [Q2 [T2 [M2 [S2 C2]]]]].
  split; [exists (a1 ++ a2); rewrite L2, L1, app_assoc; reflexivity|].
  split; [|repeat split; try congruence; auto].
  intros r3 H3. destruct (Q2 r3 H3) as [r2 [H2 D2]].
  destruct (Q1 r2 H2) as [r1 [H1 D1]]. exists r1. split; [exact H1|].
  unfold descends in *.
  destruct D1 as [? [? [? [? ?]]]]. destruct D2 as [? [? [? [? ?]]]].
  repeat split; try congruence; lia.
Qed.

Lemma upload_image_progress (record : image_record)
    (env : Uploader.task_env) (w w' : world) (r : result Uploader.outcome) :
  Uploader.upload_image record env w = (w', r) ->
  progress (self w) (self w').
Proof.
  intro H. unfold progress.
  destruct (upload_image_cases _ _ _ _ _ H) as [_ [T [M [S [_ C]]]]].
  split; [|split; [|repeat split; auto]].
  - destruct (upload_image_ledger _ _ _ _ _ H) as [L|[L _]]; rewrite L.
    + exists []. symmetry. apply app_nil_r.
    + eexists. reflexivity.
  - intros r' Hin.
    destruct (upload_image_queue _ _ _ _ _ H) as [Q|[Q|[msg Q]]];
      rewrite Q in Hin.
    + exists r'. split; [exact Hin|apply descends_refl].
    + apply in_query_delete in Hin. destruct Hin as [Hin _].
      exists r'. split; [exact Hin|apply descends_refl].
    + destruct (in_marked_descends _ _ _ _ Hin) as [r0 [H0 [D _]]].
      exists r0. split; assumption.
  - intro H0. destruct r as [[| |]|[m|c m|m]]; lia.
Qed.

Lemma run_workers_progress (envs : nat -> Uploader.task_env) :
  forall (records : list image_record) (i : nat) (w w' : world)
         (rs : result (list (result Uploader.outcome))),
    Uploader.run_workers i records envs w = (w', rs) ->
    progress (self w) (self w').
Proof.
  induction records as [|record rest IH]; intros i w w' rs H.
  - simpl in H. unfold ret in H. inversion H; subst. apply progress_refl.
  - simpl in H. unfold bind, Uploader.future, ret in H.
    destruct (Uploader.upload_image record (envs i) w) as [w1 r1] eqn:E.
    destruct (Uploader.run_workers (S i) rest envs w1) as [w2 [l|e]] eqn:R;
      inversion H; subst;
      (eapply progress_trans;
       [eapply upload_image_progress; exact E|eapply IH; exact R]).
Qed.

Lemma loop_body_progress (e : Uploader.iter_env) (w w1 : world)
    (r : result Uploader.ctl) :
  Uploader.loop_body e w = (w1, r) -> progress (self w) (self w1).
Proof.
  intro L.
  destruct (Db.fetch_pending_uploads 50 (Uploader.fetch_fault e) w)
    as [w0 [pending|ex]] eqn:F;
    pose proof (fetch_keeps_self _ _ _ _ _ F) as Hs.
  - destruct pending as [|p ps].
    + rewrite (loop_body_empty _ _ _ F) in L.
      destruct (sleep_time (self w0) <? 0); inversion L; subst; simpl;
        rewrite Hs; apply progress_refl.
    + destruct (Z_lt_le_dec 0 (max_workers (self w0))) as [Hm|Hm].
      * destruct (run_workers_returns (Uploader.worker_env e) (p :: ps)
                    0%nat (log w0 [Log INFO])) as [w2 [futures [R _]]].
        assert (Hne : p :: ps <> []) by discriminate.
        rewrite (loop_body_batch _ _ _ _ _ _ F Hne Hm R) in L.
        apply run_workers_progress in R. simpl in R. rewrite Hs in R.
        destruct (existsb is_meltdown futures); inversion L; subst;
          exact R.
      * rewrite (loop_body_no_executor _ _ _ _ _ F Hm) in L.
        inversion L; subst; simpl. rewrite Hs. apply progress_refl.
  - rewrite (loop_body_fetch_raises _ _ _ _ F) in L.
    inversion L; subst. rewrite Hs. apply progress_refl.
Qed.

Lemma iteration_progress (e : Uploader.iter_env) (w w1 : world)
    (r : result Uploader.ctl) :
  Uploader.iteration e w = (w1, r) -> progress (self w) (self w1).
Proof.
  unfold Uploader.iteration, try_except. intro H.
  destruct (Uploader.loop_body e w) as [wl [c|ex]] eqn:L;
    apply loop_body_progress in L.
  - inversion H; subst. exact L.
  - unfold_m. simpl in H. inversion H; subst. exact L.
Qed.

Lemma loops_on_progress (envs : list Uploader.iter_env) (w w' : world) :
  loops_on envs w w' -> progress (self w) (self w').
Proof.
  induction 1 as [w|e rest w w1 w2 I L IH]; [apply progress_refl|].
  eapply progress_trans; [eapply iteration_progress; exact I|exact IH].
Qed.

Lemma closed_progress (w : world) : progress (self w) (self (closed w)).
Proof.
  unfold progress, closed. simpl.
  split; [exists []; symmetry; apply app_nil_r|].
  split; [|repeat split; auto].
  intros r' H. exists r'. split; [exact H|apply descends_refl].
Qed.

(** X16: over any number of iterations of the scheduler loop, whether it
    is still running or has returned, the ledger has only grown at its
    end, every row in the queue is a row that was there at the start with
    the same id, image, acquisition and path and a retry_count that is
    not lower, the threshold, worker count and sleep time are as
    configured, and a non-negative meltdown counter is still
    non-negative. *)
Theorem loop_only_makes_progress (envs : list Uploader.iter_env)
    (w w' : world) :
  (loops_on envs w w' -> progress (self w) (self w'))
  /\ (forall r, Uploader.run_multithreaded envs w = Some (w', r) ->
                progress (self w) (self w')).
Proof.
  split; [apply (loops_on_progress envs)|].
  intros r H.
  destruct (run_stops envs w w' r H)
    as [pre [e [post [w0 [w1 [_ [L [B [W _]]]]]]]]].
  subst w'. apply iteration_break_iff in B.
  eapply progress_trans; [eapply loops_on_progress; exact L|].
  eapply progress_trans; [eapply iteration_progress; exact B|].
  apply closed_progress.
Qed.

(** ** The single-threaded loop *)

Lemma upload_each_cons_go (i : nat) (record : image_record)
    (rest : list image_record) (envs : nat -> Uploader.task_env)
    (w w1 : world) (r : result Uploader.outcome) :
  Uploader.upload_image record (envs i) w = (w1, r) ->
  is_meltdown r = false ->
  Uploader.upload_each i (record :: rest) envs w
  = Uploader.upload_each (S i) rest envs w1.
Proof.
  intros E Hm. simpl. unfold bind, Uploader.future. rewrite E.
  destruct r as [a|[m|c m|m]]; try reflexivity. discriminate Hm.
Qed.

Lemma upload_each_cons_stop (i : nat) (record : image_record)
    (rest : list image_record) (envs : nat -> Uploader.task_env)
    (w w1 : world) (m : string) :
  Uploader.upload_image record (envs i) w = (w1, Raise (S3MeltdownError m)) ->
  Uploader.upload_each i (record :: rest) envs w
  = (log w1 [Log WARNING], Return true).
Proof.
  intro E. simpl. unfold bind, Uploader.future. rewrite E. reflexivity.
Qed.

Lemma run_workers_inv_cons (i : nat) (record : image_record)
    (rest : list image_record) (envs : nat -> Uploader.task_env)
    (w w' : world) (rs : list (result Uploader.outcome)) :
  Uploader.run_workers i (record :: rest) envs w = (w', Return rs) ->
  exists w1 r rs',
    Uploader.upload_image record (envs i) w = (w1, r)
    /\ Uploader.run_workers (S i) rest envs w1 = (w', Return rs')
    /\ rs = r :: rs'.
Proof.
  simpl. unfold bind, Uploader.future, ret.
  destruct (Uploader.upload_image record (envs i) w) as [w1 r] eqn:E.
  destruct (Uploader.run_workers (S i) rest envs w1) as [w2 [l|e]] eqn:R;
    intro H; inversion H; subst.
  exists w1, r, l. repeat split; assumption.
Qed.

Lemma upload_each_prefix (envs : nat -> Uploader.task_env) :
  forall (pre : list image_record) (i : nat) (w w1 : world)
         (rs : list (result Uploader.outcome)) (rest : list image_record),
    Uploader.run_workers i pre envs w = (w1, Return rs) ->
    existsb is_meltdown rs = false ->
    Uploader.upload_each i (pre ++ rest) envs w
    = Uploader.upload_each (i + List.length pre) rest envs w1.
Proof.
  induction pre as [|record pre IH]; intros i w w1 rs rest R Hm.
  - simpl in R. unfold ret in R. inversion R; subst.
    rewrite Nat.add_0_r. reflexivity.
  - destruct (run_workers_inv_cons _ _ _ _ _ _ _ R)
      as [wa [r [rs' [E [R' Hrs]]]]].
    subst rs. simpl in Hm. apply orb_false_iff in Hm.
    destruct Hm as [Hr Hrs'].
    simpl app. rewrite (upload_each_cons_go _ _ _ _ _ _ _ E Hr).
    rewrite (IH _ _ _ _ rest R' Hrs'). simpl List.length.
    rewrite Nat.add_succ_comm. reflexivity.
Qed.

Lemma upload_each_no_meltdown (envs : nat -> Uploader.task_env)
    (pending : list image_record) (w w1 : world)
    (rs : list (result Uploader.outcome)) :
  Uploader.run_workers 0 pending envs w = (w1, Return rs) ->
  existsb is_meltdown rs = false ->
  Uploader.upload_each 0 pending envs w = (w1, Return false).
Proof.
  intros R Hm. rewrite <- (app_nil_r pending) at 1.
  rewrite (upload_each_prefix envs pending 0%nat w w1 rs [] R Hm).
  reflexivity.
Qed.

(** X17: the single-threaded loop runs the tasks of a batch as the
    multi-threaded one does until the first meltdown: with no meltdown in
    the batch it ends in the same state with the flag unset; at the first
    task that raises the meltdown signal it warns, sets the flag and
    leaves the loop, so that the tasks after it in the batch are not
    started at all, whatever they are. *)
Theorem single_threaded_stops_at_first_meltdown
    (envs : nat -> Uploader.task_env) (pre : list image_record)
    (w w1 : world) (rs : list (result Uploader.outcome)) :
  Uploader.run_workers 0 pre envs w = (w1, Return rs) ->
  existsb is_meltdown rs = false ->
  Uploader.upload_each 0 pre envs w = (w1, Return false)
  /\ forall record w2 m post,
       Uploader.upload_image record (envs (List.length pre)) w1
       = (w2, Raise (S3MeltdownError m)) ->
       Uploader.upload_each 0 (pre ++ record :: post) envs w
       = (log w2 [Log WARNING], Return true).
Proof.
  intros R Hm. split.
  - apply (upload_each_no_meltdown envs pre w w1 rs R Hm).
  - intros record w2 m post E.
    rewrite (upload_each_prefix envs pre 0%nat w w1 rs _ R Hm).
    rewrite Nat.add_0_l. eapply upload_each_cons_stop. exact E.
Qed.



(** ** Loops that never stop *)

Lemma no_eligible_rows (rows : list upload_row) :
  (forall r, In r rows -> 5 <= retry_count r) ->
  filter Db.eligible rows = [].
Proof.
  induction rows as [|r rows IH]; intro H; simpl; [reflexivity|].
  unfold Db.eligible at 1.
  destruct (retry_count r <? 5) eqn:E.
  - apply Z.ltb_lt in E. pose proof (H r (or_introl eq_refl)). lia.
  - apply IH. intros r' Hr'. apply H. right. exact Hr'.
Qed.

(** A turn of the loop that cannot start a worker, because no row is
    eligible or because the executor refuses the worker count, goes on
    and leaves the uploader as it was. *)
Lemma iteration_idle (e : Uploader.iter_env) (w : world) :
  (forall r, In r (upload_to_s3 (db (self w))) -> 5 <= retry_count r)
  \/ max_workers (self w) <= 0 ->
  exists w1,
    Uploader.iteration e w = (w1, Return Uploader.Continue)
    /\ self w1 = self w
    /\ exists evs, trace w1 = trace w ++ evs
                   /\ Forall (fun ev => forall p, ev <> IsFile p) evs.
Proof.
  intro Hidle.
  unfold Uploader.iteration, try_except.
  destruct (Db.fetch_pending_uploads 50 (Uploader.fetch_fault e) w)
    as [w0 [pending|ex]] eqn:F;
    pose proof (fetch_keeps_self _ _ _ _ _ F) as Hs.
  - destruct (fetch_returns _ _ _ _ _ F) as [_ Hw0].
    destruct pending as [|p ps].
    + rewrite (loop_body_empty _ _ _ F).
      destruct (sleep_time (self w0) <? 0); unfold_m; simpl;
        (eexists; split; [reflexivity|]; split; [exact Hs|]);
        subst w0; simpl; flatten_trace;
        (eexists; split; [reflexivity|]);
        repeat constructor; discriminate.
    + destruct Hidle as [Hret|Hm].
      * destruct (fetch_rows _ _ _ _ _ F) as [_ Hrows].
        rewrite (no_eligible_rows _ Hret) in Hrows. discriminate Hrows.
      * rewrite <- Hs in Hm.
        rewrite (loop_body_no_executor _ _ _ _ _ F Hm).
        unfold_m; simpl.
        eexists; split; [reflexivity|]; split; [exact Hs|].
        subst w0; simpl; flatten_trace.
        eexists; split; [reflexivity|].
        repeat constructor; discriminate.
  - rewrite (loop_body_fetch_raises _ _ _ _ F).
    unfold_m; simpl.
    eexists; split; [reflexivity|]; split; [exact Hs|].
    revert F. unfold Db.fetch_pending_uploads, Db.execute_query,
      Db.get_connection, Db.query_fetch. unfold_m. simpl.
    destruct (connection_pool (db (self w))) as [[|]|]; simpl;
      [destruct (Uploader.fetch_fault e); simpl|..];
      intro F; inversion F; subst; simpl; flatten_trace;
      (eexists; split; [reflexivity|]);
      repeat constructor; discriminate.
Qed.

Lemma run_idle (envs : list Uploader.iter_env) :
  forall w,
    (forall r, In r (upload_to_s3 (db (self w))) -> 5 <= retry_count r)
    \/ max_workers (self w) <= 0 ->
    Uploader.run_multithreaded envs w = None
    /\ exists w', loops_on envs w w' /\ self w' = self w
         /\ exists evs, trace w' = trace w ++ evs
                        /\ Forall (fun ev => forall p, ev <> IsFile p) evs.
Proof.
  induction envs as [|e rest IH]; intros w Hidle.
  - split; [reflexivity|]. exists w. split; [constructor|].
    split; [reflexivity|]. exists []. split; [symmetry; apply app_nil_r|].
    constructor.
  - destruct (iteration_idle e w Hidle) as [w1 [I [Hs [evs1 [T1 F1]]]]].
    destruct (IH w1) as [R [w' [L [Hs' [evs2 [T2 F2]]]]]].
    { rewrite Hs. exact Hidle. }
    split; [simpl; rewrite I; exact R|].
    exists w'. split; [econstructor; eassumption|].
    split; [congruence|]. exists (evs1 ++ evs2).
    split; [rewrite T2, T1, app_assoc; reflexivity|].
    apply Forall_app. split; assumption.
Qed.

(** X19: when every queue row stands at retry_count 5 or more, the
    scheduler loop neither returns nor touches anything, however many
    iterations it makes and whatever the store answers: the retired
    tasks stay in the queue for good, the uploader is as it was, and no
    worker is started. *)
Theorem retired_queue_idles_forever (envs : list Uploader.iter_env)
    (w : world) :
  (forall r, In r (upload_to_s3 (db (self w))) -> 5 <= retry_count r) ->
  Uploader.run_multithreaded envs w = None
  /\ exists w', loops_on envs w w' /\ self w' = self w
       /\ exists evs, trace w' = trace w ++ evs
                      /\ Forall (fun ev => forall p, ev <> IsFile p) evs.
Proof.
  intro H. apply run_idle. left. exact H.
Qed.

(** X20: with a worker count of zero or less the multi-threaded loop
    never starts a worker and never returns: every iteration that
    fetches a batch fails at the executor, the handler logs it, and the
    queue, the ledger and the counter stay as they were. *)
Theorem no_workers_no_uploads (envs : list Uploader.iter_env) (w : world) :
  max_workers (self w) <= 0 ->
  Uploader.run_multithreaded envs w = None
  /\ exists w', loops_on envs w w' /\ self w' = self w
       /\ exists evs, trace w' = trace w ++ evs
                      /\ Forall (fun ev => forall p, ev <> IsFile p) evs.
Proof.
  intro H. apply run_idle. right. exact H.
Qed.

(** ** Construction *)

(** X21: when the five database keys and the endpoint are in the
    configuration, the pool can be opened and boto3 yields a client,
    [__init__] returns with the pool open, the wrapper holding that
    client and the expiry read from the credential file, the counter at
    zero and the arguments stored, and the tables of the singleton
    accessor untouched. *)
Theorem init_establishes_the_uploader (db_config s3_config : Py.dict)
    (connect : response unit) (cenv : Wrapper.cred_env)
    (workers threshold sleep : Z) (w : world)
    (u p h o d endpoint : string) (client : handle) :
  Py.dict_get db_config "user" = Some u ->
  Py.dict_get db_config "password" = Some p ->
  Py.dict_get db_config "host" = Some h ->
  Py.dict_get db_config "port" = Some o ->
  Py.dict_get db_config "database" = Some d ->
  Py.dict_get s3_config "endpoint_url" = Some endpoint ->
  connect = Done tt ->
  Wrapper.session_client cenv = Done client ->
  exists w',
    Uploader.init db_config s3_config connect cenv workers threshold sleep w
    = (w', Return tt)
    /\ store_ready w'
    /\ s3_client_wrapper (self w')
       = mk_S3ClientWrapper endpoint (Py.dict_get s3_config "region")
           (Some client) (Wrapper.credentials_expiration cenv)
    /\ consecutive_meltdown_errors (self w') = 0
    /\ meltdown_threshold (self w') = threshold
    /\ max_workers (self w') = workers
    /\ sleep_time (self w') = sleep
    /\ upload_to_s3 (db (self w')) = upload_to_s3 (db (self w))
    /\ uploaded_s3 (db (self w')) = uploaded_s3 (db (self w)).
Proof.
  intros Hu Hp Hh Ho Hd He Hc Hs.
  unfold Uploader.init, Uploader.getitem, Db.initialize_connection_pool,
    Wrapper.init, Wrapper._refresh_s3_client, Wrapper._create_s3_client,
    Wrapper._read_aws_credentials_expiry, Wrapper.get_wrapper,
    Wrapper.set_wrapper, store_ready.
  rewrite Hu, Hp, Hh, Ho, Hd, He, Hc. unfold_m. simpl. rewrite Hs. simpl.
  eexists. split; [reflexivity|]. simpl. repeat split; reflexivity.
Qed.

(** X22: when the pool has been opened but boto3 fails to create the
    client, [__init__] raises that exception and the pool it opened on
    the singleton accessor stays open: the constructor does nothing after
    the failed creation, so nothing closes it. *)
Theorem failed_init_leaves_pool_open (db_config s3_config : Py.dict)
    (cenv : Wrapper.cred_env) (workers threshold sleep : Z) (w : world)
    (u p h o d endpoint : string) (e : io_error) :
  Py.dict_get db_config "user" = Some u ->
  Py.dict_get db_config "password" = Some p ->
  Py.dict_get db_config "host" = Some h ->
  Py.dict_get db_config "port" = Some o ->
  Py.dict_get db_config "database" = Some d ->
  Py.dict_get s3_config "endpoint_url" = Some endpoint ->
  Wrapper.session_client cenv = Failed e ->
  exists w',
    Uploader.init db_config s3_config (Done tt) cenv workers threshold
      sleep w
    = (w', Raise (to_exn e))
    /\ store_ready w'
    /\ trace w' = trace w ++ [Log INFO; CreateClient endpoint].
Proof.
  intros Hu Hp Hh Ho Hd He Hs.
  unfold Uploader.init, Uploader.getitem, Db.initialize_connection_pool,
    Wrapper.init, Wrapper._refresh_s3_client, Wrapper._create_s3_client,
    Wrapper._read_aws_credentials_expiry, Wrapper.get_wrapper,
    Wrapper.set_wrapper, store_ready.
  rewrite Hu, Hp, Hh, Ho, Hd, He. unfold_m. simpl. rewrite Hs. simpl.
  eexists. split; [destruct e; reflexivity|]. simpl.
  split; [reflexivity|]. flatten_trace. reflexivity.
Qed.

(** ** The cached client *)

(** X23: the client is cached by the expiry read at its creation.  After
    a creation that read an expiry, a later call more than ten minutes
    before that expiry returns the same client without asking boto3, even
    if boto3 would fail then; after a creation that found no expiry in
    the credential file, the next call asks boto3 again, so that it
    returns the new client or raises boto3's failure. *)
Theorem client_cached_by_expiry (env1 env2 : Wrapper.cred_env) (w : world)
    (h1 : handle) :
  refresh_due false (s3_client_wrapper (self w)) (Wrapper.now env1) ->
  Wrapper.session_client env1 = Done h1 ->
  exists w1,
    Wrapper.get_fresh_s3_client env1 w = (w1, Return (Some h1))
    /\ (forall t,
          Wrapper.credentials_expiration env1 = Some t ->
          Wrapper.now env2 < t - 10 * 60 * 1000000 ->
          Wrapper.get_fresh_s3_client env2 w1 = (w1, Return (Some h1)))
    /\ (Wrapper.credentials_expiration env1 = None ->
        (forall h2, Wrapper.session_client env2 = Done h2 ->
           exists w2,
             Wrapper.get_fresh_s3_client env2 w1 = (w2, Return (Some h2))
             /\ trace w2
                = trace w1
                  ++ [CreateClient
                        (endpoint_url (s3_client_wrapper (self w)))])
        /\ (forall e, Wrapper.session_client env2 = Failed e ->
              snd (Wrapper.get_fresh_s3_client env2 w1)
              = Raise (to_exn e))).
Proof.
  intros Hd Hs. apply needs_refresh_due in Hd.
  destruct (Wrapper.get_fresh_s3_client env1 w) as [w1 r] eqn:G.
  revert G.
  unfold Wrapper.get_fresh_s3_client, Wrapper._refresh_s3_client,
    Wrapper._create_s3_client, Wrapper._read_aws_credentials_expiry,
    Wrapper.get_wrapper, Wrapper.set_wrapper, try_except, bind, emit, raise,
    ret.
  simpl. rewrite Hd, Hs. simpl. intro G. inversion G; subst w1 r; clear G.
  eexists. split; [reflexivity|]. simpl. split.
  - intros t Ht Hn. rewrite Ht.
    unfold Wrapper.needs_refresh, Wrapper.timedelta_minutes,
      Wrapper.BUFFER_PERIOD_MINUTES. simpl.
    match goal with
    | |- context [?a >=? ?b] => destruct (a >=? b) eqn:E
    end; [apply Z.geb_le in E; lia|]. reflexivity.
  - intro Hn. rewrite Hn. simpl. split.
    + intros h2 H2. rewrite H2. simpl. eexists. split; reflexivity.
    + intros e He. rewrite He. destruct e; reflexivity.
Qed.

(** ** The verifier *)

(** X24: [check_exists] never raises and never changes the uploader; it
    answers true exactly when a client is at hand and the probe
    completes; whenever the uploader's [file_exists_in_s3] returns an
    answer, [check_exists] on the same probe returns that answer after
    the same events; and the probe it makes for a local path under
    [BUCKET_NAME] and [key_for_local_path] is the very probe the
    uploader makes for that path. *)
Theorem check_exists_agrees_with_uploader (s3_client : option handle)
    (bucket_name key : string) (resp : response unit) (w : world) :
  (exists w' ok err,
     Verifier.check_exists s3_client bucket_name key resp w
     = (w', Return (ok, err))
     /\ self w' = self w
     /\ (ok = true <-> (exists h, s3_client = Some h) /\ resp = Done tt))
  /\ (forall w1 found,
        Uploader.file_exists_in_s3 s3_client bucket_name key resp w
        = (w1, Return found) ->
        exists err,
          Verifier.check_exists s3_client bucket_name key resp w
          = (w1, Return (found, err)))
  /\ (forall h p,
        fst (Verifier.check_exists (Some h) Verifier.BUCKET_NAME
               (Verifier.key_for_local_path p) resp w)
        = log w [HeadObject "mikro" (Uploader.s3_path_of p)]).
Proof.
  unfold Verifier.check_exists, Uploader.file_exists_in_s3,
    Uploader.count_meltdown_error, log.
  unfold_m. split; [|split].
  - destruct s3_client as [h|]; simpl.
    + destruct resp as [[]|[code m|m]]; simpl.
      * eexists; eexists; eexists. split; [reflexivity|].
        split; [reflexivity|]. split; eauto.
      * destruct (String.eqb code "404");
          (eexists; eexists; eexists; split; [reflexivity|];
           split; [reflexivity|]; split;
           [discriminate|intros [_ H]; discriminate H]).
      * eexists; eexists; eexists. split; [reflexivity|].
        split; [reflexivity|]. split;
          [discriminate|intros [_ H]; discriminate H].
    + eexists; eexists; eexists. split; [reflexivity|].
      split; [reflexivity|]. split;
        [discriminate|intros [[h H] _]; discriminate H].
  - intros w1 found H. destruct s3_client as [h|]; [|discriminate H].
    destruct resp as [[]|[code m|m]]; simpl in *;
      repeat (case_step H); try discriminate H;
      inversion H; subst; eexists; reflexivity.
  - intros h p. destruct resp as [[]|[code m|m]]; simpl;
      [| destruct (String.eqb code "404") |]; reflexivity.
Qed.

Lemma str_in_In (x : string) (l : list string) :
  Py.str_in x l = true <-> In x l.
Proof.
  induction l as [|y l IH]; simpl; [split; [discriminate|tauto]|].
  destruct (String.eqb_spec x y) as [E|E].
  - split; auto.
  - rewrite IH. split; [auto|]. intros [H|H]; [congruence|exact H].
Qed.

Lemma sample_loop_spec (n max_attempts : Z) (finds : nat -> string) :
  forall (fuel : nat) (chosen seen : list string) (attempts : Z),
    sampling finds chosen seen attempts ->
    (Z.to_nat (max_attempts - attempts) <= fuel)%nat ->
    Z.of_nat (List.length chosen) <= Z.max 0 n ->
    exists out seen' attempts',
      Verifier.sample_loop fuel n max_attempts finds chosen seen attempts
      = Some out
      /\ sampling finds out seen' attempts'
      /\ attempts' <= Z.max attempts max_attempts
      /\ Z.of_nat (List.length out) <= Z.max 0 n
      /\ (Z.of_nat (List.length out) < n -> max_attempts <= attempts').
Proof.
  induction fuel as [|fuel IH]; intros chosen seen attempts Inv Hf Hl;
    simpl;
    destruct (Z.of_nat (List.length chosen) <? n) eqn:E1;
    destruct (attempts <? max_attempts) eqn:E2; simpl;
    try (exists chosen, seen, attempts;
         split; [reflexivity|]; split; [exact Inv|];
         split; [lia|]; split; [exact Hl|];
         intro Hlt;
         try (apply Z.ltb_ge in E1; lia);
         apply Z.ltb_ge in E2; lia).
  - exfalso. apply Z.ltb_lt in E2. lia.
  - apply Z.ltb_lt in E1. apply Z.ltb_lt in E2.
    destruct Inv as [H0 [Hnd [Hseen [Hel Hcomp]]]].
    assert (Hidx : forall k, Z.of_nat k < attempts + 1 ->
                     Z.of_nat k < attempts \/ k = Z.to_nat attempts)
      by (intros k Hk; lia).
    destruct (String.eqb_spec (finds (Z.to_nat attempts)) "") as [Ee|Ee].
    + destruct (IH chosen seen (attempts + 1))
        as [out [seen' [a' [R [Inv' [Ha [Hlo Hc]]]]]]]; [|lia|exact Hl|].
      { split; [lia|]. split; [exact Hnd|]. split; [exact Hseen|]. split.
        - intros x Hx. destruct (Hel x Hx) as [Hne [k [Hk Hfk]]].
          split; [exact Hne|]. exists k. split; [lia|exact Hfk].
        - intros k Hk Hne. destruct (Hidx k Hk) as [Hk'|Hk'].
          + apply Hcomp; assumption.
          + subst k. contradiction. }
      exists out, seen', a'.
        split; [exact R|]. split; [exact Inv'|]. split; [lia|].
        split; [exact Hlo|exact Hc].
    + destruct (Py.str_in (finds (Z.to_nat attempts)) seen) eqn:Es.
      * apply str_in_In in Es. apply Hseen in Es.
        destruct (IH chosen seen (attempts + 1))
          as [out [seen' [a' [R [Inv' [Ha [Hlo Hc]]]]]]]; [|lia|exact Hl|].
        { split; [lia|]. split; [exact Hnd|]. split; [exact Hseen|]. split.
          - intros x Hx. destruct (Hel x Hx) as [Hne [k [Hk Hfk]]].
            split; [exact Hne|]. exists k. split; [lia|exact Hfk].
          - intros k Hk Hne. destruct (Hidx k Hk) as [Hk'|Hk'].
            + apply Hcomp; assumption.
            + subst k. exact Es. }
        exists out, seen', a'.
        split; [exact R|]. split; [exact Inv'|]. split; [lia|].
        split; [exact Hlo|exact Hc].
      * assert (Hnew : ~ In (finds (Z.to_nat attempts)) chosen).
        { intro Hin. apply Hseen in Hin. apply str_in_In in Hin.
          congruence. }
        destruct (IH (chosen ++ [finds (Z.to_nat attempts)])
                    (finds (Z.to_nat attempts) :: seen) (attempts + 1))
          as [out [seen' [a' [R [Inv' [Ha [Hlo Hc]]]]]]]; [|lia| |].
        { split; [lia|]. split.
          - apply NoDup_app; [exact Hnd|repeat constructor; intros []|].
            intros x Hx [Hx'|[]]. subst x. contradiction.
          - split.
            + intro x. rewrite in_app_iff. simpl. rewrite Hseen. tauto.
            + split.
              * intros x Hx. apply in_app_iff in Hx.
                destruct Hx as [Hx|[Hx|[]]].
                -- destruct (Hel x Hx) as [Hne [k [Hk Hfk]]].
                   split; [exact Hne|]. exists k. split; [lia|exact Hfk].
                -- subst x. split; [exact Ee|].
                   exists (Z.to_nat attempts). split; [lia|reflexivity].
              * intros k Hk Hne. apply in_app_iff.
                destruct (Hidx k Hk) as [Hk'|Hk'].
                -- left. apply Hcomp; assumption.
                -- subst k. right. left. reflexivity. }
        { rewrite length_app. simpl. lia. }
        exists out, seen', a'.
        split; [exact R|]. split; [exact Inv'|]. split; [lia|].
        split; [exact Hlo|exact Hc].
Qed.

(** X25: [sample_random_tiffs] always returns, for any target and any
    bound on the attempts; the paths it returns are pairwise distinct and
    non-empty, at most [n] of them (none when [n] is not positive), each
    one returned by one of the first [max_attempts] descents; and when it
    returns fewer than [n], every non-empty path that one of the first
    [max_attempts] descents returned is among them. *)
Theorem sample_random_tiffs_spec (n max_attempts : Z)
    (finds : nat -> string) :
  exists chosen,
    Verifier.sample_random_tiffs n max_attempts finds = Some chosen
    /\ NoDup chosen
    /\ Z.of_nat (List.length chosen) <= Z.max 0 n
    /\ (forall x, In x chosen ->
          x <> "" /\ exists k, Z.of_nat k < max_attempts /\ finds k = x)
    /\ (Z.of_nat (List.length chosen) < n ->
        forall k, Z.of_nat k < max_attempts -> finds k <> "" ->
                  In (finds k) chosen).
Proof.
  destruct (sample_loop_spec n max_attempts finds
              (Z.to_nat max_attempts) [] [] 0)
    as [out [seen' [a' [R [Inv [Ha [Hl Hc]]]]]]].
  - split; [lia|]. split; [constructor|]. split; [tauto|].
    split; [intros x []|]. intros k Hk. lia.
  - lia.
  - simpl. lia.
  - exists out. split; [exact R|].
    destruct Inv as [H0 [Hnd [_ [Hel Hcomp]]]].
    split; [exact Hnd|]. split; [exact Hl|]. split.
    + intros x Hx. destruct (Hel x Hx) as [Hne [k [Hk Hfk]]].
      split; [exact Hne|]. exists k. split; [lia|exact Hfk].
    + intros Hlt k Hk Hne. apply Hcomp; [|exact Hne].
      specialize (Hc Hlt). lia.
Qed.

Lemma sample_loop_yield_loop (n max_attempts : Z) (finds : nat -> string) :
  forall (fuel : nat) (chosen seen : list string) (attempts : Z),
    Verifier.sample_loop fuel n max_attempts finds chosen seen attempts
    = option_map (app chosen)
        (Verifier.yield_loop fuel n max_attempts finds seen attempts
           (Z.of_nat (List.length chosen))).
Proof.
  induction fuel as [|fuel IH]; intros chosen seen attempts; simpl;
    destruct ((Z.of_nat (List.length chosen) <? n)
              && (attempts <? max_attempts)); simpl;
    try (rewrite app_nil_r; reflexivity); try reflexivity.
  destruct (String.eqb (finds (Z.to_nat attempts)) ""); [apply IH|].
  destruct (Py.str_in (finds (Z.to_nat attempts)) seen); [apply IH|].
  rewrite IH. rewrite length_app. simpl List.length.
  replace (Z.of_nat (List.length chosen + 1))
    with (Z.of_nat (List.length chosen) + 1) by lia.
  destruct (Verifier.yield_loop fuel n max_attempts finds
              (finds (Z.to_nat attempts) :: seen) (attempts + 1)
              (Z.of_nat (List.length chosen) + 1)) as [rest|]; simpl;
    [|reflexivity].
  rewrite <- app_assoc. reflexivity.
Qed.

(** X26: run to exhaustion, the generator [yield_random_tiffs] yields
    exactly the list that [sample_random_tiffs] returns for the same
    target, bound and descents, in the same order. *)
Theorem yield_random_tiffs_is_sample (n max_attempts : Z)
    (finds : nat -> string) :
  Verifier.yield_random_tiffs n max_attempts finds
  = Verifier.sample_random_tiffs n max_attempts finds.
Proof.
  unfold Verifier.yield_random_tiffs, Verifier.sample_random_tiffs.
  rewrite sample_loop_yield_loop. simpl.
  destruct (Verifier.yield_loop _ _ _ _ _ _ _); reflexivity.
Qed.

(** * The further properties at concrete processes *)

Lemma failed_statement_has_no_effect_witness :
  self (fst (Db.mark_as_failed 1 "x" (Some "boom") Ex.w0)) = self Ex.w0
  /\ self (fst (Db.fetch_pending_uploads (-1) None Ex.w0)) = self Ex.w0.
Proof.
  destruct failed_statement_has_no_effect as [P1 [_ [P3 _]]]. split.
  - apply (P3 1 "x" (Some "boom") Ex.w0 _ (Exception "boom")).
    vm_compute. reflexivity.
  - apply (P1 (-1) None Ex.w0 _
             (Raise (Exception "LIMIT must not be negative"))).
    vm_compute. reflexivity.
Defined.

Lemma closed_pool_refuses_witness :
  exists w1,
    Db.close_all_connections Ex.w0 = (w1, Return tt)
    /\ snd (Db.fetch_pending_uploads 50 None w1) = Raise pool_closed_error.
Proof.
  destruct (closed_pool_refuses Ex.w0 eq_refl) as [w1 [E [_ [_ [F _]]]]].
  exists w1. split; [exact E|apply F].
Defined.

Lemma uninitialised_pool_refuses_witness :
  Db.fetch_pending_uploads 50 None Ex.w_cold
  = (log Ex.w_cold [DbFetch 50],
     Raise (Exception "Connection pool is not initialized."))
  /\ Db.close_all_connections Ex.w_cold
     = (log Ex.w_cold [DbCloseAll], Return tt).
Proof.
  pose proof (uninitialised_pool_refuses Ex.w_cold eq_refl) as P.
  cbv zeta in P. destruct P as [P1 [_ [_ P4]]].
  split; [apply P1|exact P4].
Defined.

Lemma deleted_task_never_fetched_witness :
  exists w1,
    Db.delete_uploaded_record 1 None Ex.w0 = (w1, Return tt)
    /\ forall w2 rows t,
         Db.fetch_pending_uploads 50 None w1 = (w2, Return rows) ->
         In t rows -> rec_id t <> 1.
Proof.
  destruct (deleted_task_never_fetched 1 Ex.w0 eq_refl)
    as [w1 [E [_ [F _]]]].
  exists w1. split; [exact E|]. intros w2 rows t. apply F.
Defined.

Lemma ex_row2_at_four :
  forall r, In r (upload_to_s3 (db (self Ex.w0))) -> id r = 2 ->
            4 <= retry_count r.
Proof.
  intros r [H|[H|[H|[]]]] Hid; subst r; simpl in *; lia.
Defined.

Lemma fifth_failure_retires_witness :
  exists w1,
    Db.mark_as_failed 2 "boom" None Ex.w0 = (w1, Return tt)
    /\ forall w2 rows t,
         Db.fetch_pending_uploads 50 None w1 = (w2, Return rows) ->
         In t rows -> rec_id t <> 2.
Proof.
  destruct (fifth_failure_retires 2 "boom" Ex.w0 eq_refl ex_row2_at_four)
    as [w1 [E [_ F]]].
  exists w1. split; [exact E|]. intros w2 rows t. apply F.
Defined.

Lemma ex_no_row_99 :
  forall r, In r (upload_to_s3 (db (self Ex.w0))) -> id r <> 99.
Proof.
  intros r [H|[H|[H|[]]]]; subst r; simpl; lia.
Defined.

Lemma absent_id_is_silent_witness :
  (exists w1, Db.mark_as_failed 99 "boom" None Ex.w0 = (w1, Return tt)
              /\ db (self w1) = db (self Ex.w0))
  /\ (exists w1, Db.delete_uploaded_record 99 None Ex.w0 = (w1, Return tt)
                 /\ db (self w1) = db (self Ex.w0)).
Proof.
  exact (absent_id_is_silent 99 "boom" Ex.w0 eq_refl ex_no_row_99).
Defined.

Lemma single_image_lookup_witness :
  Db.fetch_pending_uploads_single_image "/a/b/c.tif" None Ex.w0
  = (log Ex.w0 [DbFetch 50], Return (Some Ex.record2))
  /\ local_path Ex.record2 = "/a/b/c.tif".
Proof.
  assert (E : Db.fetch_pending_uploads_single_image "/a/b/c.tif" None Ex.w0
              = (log Ex.w0 [DbFetch 50], Return (Some Ex.record2)))
    by (vm_compute; reflexivity).
  split; [exact E|].
  exact (proj1 (proj2 (single_image_lookup _ _ _ _ _ E))).
Defined.

Lemma permanent_probe_error_marks_failed_witness :
  exists w',
    Uploader.upload_image Ex.record2 Ex.env_403 Ex.w3
    = (w', Return Uploader.SoftFailed)
    /\ consecutive_meltdown_errors (self w') = 3.
Proof.
  destruct (permanent_probe_error_marks_failed Ex.record2 Ex.env_403 Ex.w3
              (ClientErr "403" "Forbidden")
              eq_refl (ex_has_client 3) (ex_intro _ 1%nat eq_refl) eq_refl
              eq_refl) as [w' [E [_ [_ [_ C]]]]].
  - split; [discriminate|].
    intros [H|[H|H]]; discriminate H.
  - reflexivity.
  - exists w'. split; [exact E|exact C].
Defined.

Lemma client_failure_marks_failed_witness :
  exists w',
    Uploader.upload_image Ex.record2 Ex.env_client_down Ex.w3
    = (w', Return Uploader.SoftFailed)
    /\ s3_client_wrapper (self w') = Ex.wrapper.
Proof.
  destruct (client_failure_marks_failed Ex.record2 Ex.env_client_down Ex.w3
              (OtherErr "no endpoint") eq_refl)
    as [w' [E [_ [_ [_ [W _]]]]]].
  - right. right. exists 7200000000. split; [reflexivity|]. simpl. lia.
  - reflexivity.
  - reflexivity.
  - reflexivity.
  - exists w'. split; [exact E|exact W].
Defined.

Lemma permanent_transfer_error_marks_failed_witness :
  exists w',
    Uploader.upload_image Ex.record2 Ex.env_put_denied Ex.w3
    = (w', Return Uploader.SoftFailed)
    /\ uploaded_s3 (db (self w')) = [].
Proof.
  destruct (permanent_transfer_error_marks_failed Ex.record2
              Ex.env_put_denied Ex.w3
              (ClientErr "AccessDenied" "Access Denied")
              eq_refl (ex_has_client 3) (ex_intro _ 1%nat eq_refl) eq_refl
              (ex_intro _ "Not Found" eq_refl)
              (or_intror (conj eq_refl eq_refl)))
    as [w' [evs [E [_ [_ [_ [_ [L _]]]]]]]].
  - intros [H|[H|H]]; discriminate H.
  - reflexivity.
  - exists w'. split; [exact E|exact L].
Defined.

Lemma ex_skipped_found : skipped_env Ex.env_found.
Proof. split; [reflexivity|exact ex_found]. Defined.

Lemma ledger_fault_loses_the_record_witness :
  exists w1 w2,
    Uploader.upload_image Ex.record2 Ex.env_insert_fault Ex.w3
    = (w1, Return Uploader.SoftFailed)
    /\ Uploader.upload_image Ex.record2 Ex.env_found w1
       = (w2, Return Uploader.SkippedExisting)
    /\ uploaded_s3 (db (self w2)) = [].
Proof.
  destruct (ledger_fault_loses_the_record Ex.record2 Ex.env_insert_fault
              Ex.env_found Ex.w3 "deadlock detected"
              eq_refl (ex_has_client 3) (ex_intro _ 1%nat eq_refl) eq_refl
              (ex_intro _ "Not Found" eq_refl) eq_refl eq_refl eq_refl
              eq_refl ex_skipped_found)
    as [w1 [evs [w2 [E1 [_ [_ [_ [_ [_ [E2 [_ L]]]]]]]]]]].
  exists w1, w2. split; [exact E1|]. split; [exact E2|exact L].
Defined.

Lemma delete_fault_leaves_task_queued_witness :
  exists w',
    Uploader.upload_image Ex.record2 Ex.env_delete_fault Ex.w3
    = (w', Return Uploader.SoftFailed)
    /\ uploaded_s3 (db (self w')) = [ledger_row Ex.record2]
    /\ consecutive_meltdown_errors (self w') = 3.
Proof.
  destruct (delete_fault_leaves_task_queued Ex.record2 Ex.env_delete_fault
              Ex.w3 "deadlock detected"
              eq_refl (ex_has_client 3) (ex_intro _ 1%nat eq_refl) eq_refl
              (ex_intro _ "Not Found" eq_refl) eq_refl eq_refl eq_refl
              eq_refl eq_refl)
    as [w' [E [L [_ C]]]].
  exists w'. split; [exact E|]. split; [exact L|exact C].
Defined.

Lemma transient_below_threshold_burns_a_retry_witness :
  exists w',
    Uploader.upload_image Ex.record2 Ex.env_503 Ex.w3
    = (w', Return Uploader.SoftFailed)
    /\ consecutive_meltdown_errors (self w') = 3 + 1.
Proof.
  destruct (transient_below_threshold_burns_a_retry Ex.record2 Ex.env_503
              Ex.w3 (ex_has_client 3) ex_transient_503 eq_refl eq_refl)
    as [w' [msg [E [_ [_ C]]]]].
  - simpl. lia.
  - exists w'. split; [exact E|exact C].
Defined.

Lemma worker_touches_only_its_task_witness :
  without 2 (upload_to_s3
               (db (self (fst (Uploader.upload_image Ex.record2 Ex.env_403
                                 Ex.w3)))))
  = [Ex.row1; Ex.row3].
Proof.
  assert (E : Uploader.upload_image Ex.record2 Ex.env_403 Ex.w3
              = (fst (Uploader.upload_image Ex.record2 Ex.env_403 Ex.w3),
                 Return Uploader.SoftFailed))
    by (vm_compute; reflexivity).
  refine (eq_trans (proj1 (worker_touches_only_its_task _ _ _ _ _ E)) _).
  reflexivity.
Defined.

Lemma ledger_row_only_after_transfer_witness :
  uploaded_s3 (db (self (fst (Uploader.upload_image Ex.record2 Ex.env_ok
                                Ex.w3))))
  = [ledger_row Ex.record2]
  /\ Uploader.put_object Ex.env_ok = Done tt.
Proof.
  assert (E : Uploader.upload_image Ex.record2 Ex.env_ok Ex.w3
              = (fst (Uploader.upload_image Ex.record2 Ex.env_ok Ex.w3),
                 Return Uploader.Succeeded))
    by (vm_compute; reflexivity).
  destruct (ledger_row_only_after_transfer _ _ _ _ _ E) as [_ P].
  split; [vm_compute; reflexivity|].
  apply P. vm_compute. discriminate.
Defined.

Lemma loop_only_makes_progress_witness :
  progress (self Ex.w4) (self Ex.w4_logged)
  /\ exists w',
       Uploader.run_multithreaded [Ex.iter_fault; Ex.iter_503] Ex.w4
       = Some (w', Return tt)
       /\ progress (self Ex.w4) (self w').
Proof.
  split.
  - apply (proj1 (loop_only_makes_progress [Ex.iter_fault] Ex.w4
                    Ex.w4_logged)).
    econstructor; [|constructor]. vm_compute. reflexivity.
  - destruct (Uploader.run_multithreaded [Ex.iter_fault; Ex.iter_503]
                Ex.w4) as [[w' r]|] eqn:H;
      [|vm_compute in H; discriminate H].
    assert (R : r = Return tt) by (vm_compute in H; congruence).
    subst r. exists w'. split; [reflexivity|].
    exact (proj2 (loop_only_makes_progress _ _ _) _ H).
Defined.

Lemma single_threaded_stops_at_first_meltdown_witness :
  exists w1 w2,
    Uploader.upload_each 0 [Ex.record1] Ex.envs_503 Ex.w3
    = (w1, Return false)
    /\ Uploader.upload_each 0 ([Ex.record1] ++ Ex.record2 :: [Ex.record1])
         Ex.envs_503 Ex.w3
       = (log w2 [Log WARNING], Return true)
    /\ Uploader.upload_image Ex.record2 Ex.env_503 w1
       = (w2, Raise (S3MeltdownError Uploader.meltdown_msg)).
Proof.
  destruct (Uploader.run_workers 0 [Ex.record1] Ex.envs_503 Ex.w3)
    as [w1 [rs|e]] eqn:R; [|vm_compute in R; discriminate R].
  assert (Hx : existsb is_meltdown rs = false).
  { vm_compute in R. inversion R. reflexivity. }
  destruct (single_threaded_stops_at_first_meltdown _ _ _ _ _ R Hx)
    as [U S].
  destruct (Uploader.upload_image Ex.record2 Ex.env_503 w1)
    as [w2 r] eqn:E.
  assert (Hr : r = Raise (S3MeltdownError Uploader.meltdown_msg)).
  { vm_compute in R. inversion R; subst w1. vm_compute in E.
    inversion E. reflexivity. }
  subst r. exists w1, w2. split; [exact U|]. split; [|exact E].
  apply (S Ex.record2 w2 Uploader.meltdown_msg [Ex.record1]). exact E.
Defined.


Lemma ex_all_retired :
  forall r, In r (upload_to_s3 (db (self Ex.w_retired))) ->
            5 <= retry_count r.
Proof.
  intros r [H|[]]; subst r; simpl; lia.
Defined.

Lemma retired_queue_idles_forever_witness :
  Uploader.run_multithreaded [Ex.iter_503; Ex.iter_fault; Ex.iter_503]
    Ex.w_retired = None.
Proof.
  exact (proj1 (retired_queue_idles_forever
                  [Ex.iter_503; Ex.iter_fault; Ex.iter_503] Ex.w_retired
                  ex_all_retired)).
Defined.

Lemma no_workers_no_uploads_witness :
  Uploader.run_multithreaded [Ex.iter_ok; Ex.iter_503] Ex.w_no_workers
  = None.
Proof.
  refine (proj1 (no_workers_no_uploads [Ex.iter_ok; Ex.iter_503]
                   Ex.w_no_workers _)).
  simpl. lia.
Defined.

Lemma init_establishes_the_uploader_witness :
  exists w',
    Uploader.init Ex.db_config Ex.s3_config (Done tt) Ex.creds 3 5 30
      Ex.w_cold
    = (w', Return tt)
    /\ store_ready w'
    /\ consecutive_meltdown_errors (self w') = 0.
Proof.
  destruct (init_establishes_the_uploader Ex.db_config Ex.s3_config
              (Done tt) Ex.creds 3 5 30 Ex.w_cold
              "mikro" "secret" "db.example.org" "5432" "imagedb"
              "https://s3.example.org" 1%nat
              eq_refl eq_refl eq_refl eq_refl eq_refl eq_refl eq_refl
              eq_refl) as [w' [E [S [_ [C _]]]]].
  exists w'. split; [exact E|]. split; [exact S|exact C].
Defined.

Lemma failed_init_leaves_pool_open_witness :
  exists w',
    Uploader.init Ex.db_config Ex.s3_config (Done tt) Ex.creds_down 3 5 30
      Ex.w_cold
    = (w', Raise (Exception "no endpoint"))
    /\ store_ready w'.
Proof.
  destruct (failed_init_leaves_pool_open Ex.db_config Ex.s3_config
              Ex.creds_down 3 5 30 Ex.w_cold
              "mikro" "secret" "db.example.org" "5432" "imagedb"
              "https://s3.example.org" (OtherErr "no endpoint")
              eq_refl eq_refl eq_refl eq_refl eq_refl eq_refl eq_refl)
    as [w' [E [S _]]].
  exists w'. split; [exact E|exact S].
Defined.

Lemma client_cached_by_expiry_witness :
  exists w1,
    Wrapper.get_fresh_s3_client Ex.creds_late Ex.w0
    = (w1, Return (Some 1%nat))
    /\ Wrapper.get_fresh_s3_client Ex.creds_down w1
       = (w1, Return (Some 1%nat)).
Proof.
  destruct (client_cached_by_expiry Ex.creds_late Ex.creds_down Ex.w0
              1%nat) as [w1 [E [C _]]].
  - right. right. exists 7200000000. split; [reflexivity|]. simpl. lia.
  - reflexivity.
  - exists w1. split; [exact E|].
    apply (C 14400000000); [reflexivity|]. simpl. lia.
Defined.

Lemma check_exists_agrees_with_uploader_witness :
  exists err,
    Verifier.check_exists (Some 1%nat) "mikro" "a/b/c.tif" Ex.not_found
      Ex.w0
    = (log Ex.w0 [HeadObject "mikro" "a/b/c.tif"], Return (false, err)).
Proof.
  destruct (check_exists_agrees_with_uploader (Some 1%nat) "mikro"
              "a/b/c.tif" Ex.not_found Ex.w0) as [_ [P _]].
  apply P. vm_compute. reflexivity.
Defined.

Lemma sample_random_tiffs_spec_witness :
  exists chosen,
    Verifier.sample_random_tiffs 2 4 Ex.finds = Some chosen
    /\ NoDup chosen
    /\ chosen = ["/a/1.tif"; "/a/2.tif"].
Proof.
  destruct (sample_random_tiffs_spec 2 4 Ex.finds)
    as [chosen [E [N _]]].
  exists chosen. split; [exact E|]. split; [exact N|].
  vm_compute in E. congruence.
Defined.
